(** * MySQL to DaMeng conversion: the converter script and the DaMeng dialect

    A shallow embedding of [large_file_converter.py] (the per-statement
    preprocessor, the global charset rewrite and the direct-then-fallback
    conversion loop) and of the type registry of
    [sqlglot/dialects/dameng.py], with the properties the design document
    states about them. *)

From Stdlib Require Import NArith ZArith Lia.
From stdpp Require Import base list strings gmap.

Open Scope N_scope.

(** ** Text

    A Python [str] is a sequence of Unicode code points. *)

Definition char := N.
Definition text := list char.

(** The code points of an ASCII literal of the source. *)
Definition cp (s : string) : text :=
  map Ascii.N_of_ascii (String.list_ascii_of_string s).

(** ** Regular expressions, as [re] runs the five patterns of the script

    Every pattern of the script is a sequence of literals and of the
    classes [\s], [\w], [\d], each taken once, [+] or [*] (greedy), and is
    compiled with [re.IGNORECASE]. *)

Inductive atom : Type :=
  | Lit (c : char)
  | Space
  | Word
  | Digit.

Inductive quant : Type :=
  | One
  | Plus
  | Star.

Definition regex := list (atom * quant).

Definition is_upper (c : char) : bool := (65 <=? c) && (c <=? 90).
Definition is_lower (c : char) : bool := (97 <=? c) && (c <=? 122).
Definition ascii_lower (c : char) : char := if is_upper c then c + 32 else c.

(** The characters an ASCII pattern literal accepts under [re.IGNORECASE]
    on [str]: a character is accepted when its simple lower-case mapping is
    the literal's, or one of the literal's case-folding equivalents.  For a
    letter these are its two cases, plus U+0130 and U+0131 for [i], U+017F
    for [s] and U+212A for [k]; a character without case accepts itself
    only. *)
Definition ignorecase_set (l : char) : list char :=
  let lo := ascii_lower l in
  if is_lower lo then
    lo :: (lo - 32) ::
      (if lo =? 105 then [304; 305]
       else if lo =? 115 then [383]
       else if lo =? 107 then [8490]
       else [])
  else [l].

Definition lit_match (l c : char) : bool :=
  existsb (N.eqb c) (ignorecase_set l).

(** [\s] on [str]: the Unicode white space characters. *)
Definition is_space (c : char) : bool :=
  ((9 <=? c) && (c <=? 13)) || ((28 <=? c) && (c <=? 32))
  || (c =? 133) || (c =? 160) || (c =? 5760)
  || ((8192 <=? c) && (c <=? 8202))
  || (c =? 8232) || (c =? 8233) || (c =? 8239) || (c =? 8287)
  || (c =? 12288).

(** The Unicode character database is not part of the repository: the
    decimal digits ([\d]) and the alphanumerics ([\w] is an alphanumeric
    or the underscore) are the two tables below. *)
Record unicode_tables : Type := {
  isdecimal : char -> bool;
  isalnum : char -> bool
}.

(** The tables restricted to ASCII, for running the definitions. *)
Definition ascii_tables : unicode_tables := {|
  isdecimal := fun c => (48 <=? c) && (c <=? 57);
  isalnum := fun c =>
    ((48 <=? c) && (c <=? 57)) || is_upper c || is_lower c
|}.

Section Regex.
Variable U : unicode_tables.

Definition atom_match (a : atom) (c : char) : bool :=
  match a with
  | Lit l => lit_match l c
  | Space => is_space c
  | Word => isalnum U c || (c =? 95)
  | Digit => isdecimal U c
  end.

(** The greedy repetition of [a], then the continuation [k]: one more
    character is tried first, and given back when what follows fails. *)
Fixpoint match_star (a : atom) (k : text -> option text) (s : text)
  : option text :=
  match s with
  | c :: s' =>
      if atom_match a c then
        match match_star a k s' with
        | Some rest => Some rest
        | None => k s
        end
      else k s
  | [] => k s
  end.

(** A match of [r] at the start of [s], by backtracking: the text that
    follows the match. *)
Fixpoint match_here (r : regex) (s : text) : option text :=
  match r with
  | [] => Some s
  | (a, One) :: r' =>
      match s with
      | c :: s' => if atom_match a c then match_here r' s' else None
      | [] => None
      end
  | (a, Plus) :: r' =>
      match s with
      | c :: s' =>
          if atom_match a c then match_star a (match_here r') s' else None
      | [] => None
      end
  | (a, Star) :: r' => match_star a (match_here r') s
  end.

(** [re.sub(r, repl, s)]: the leftmost matches, left to right and without
    overlap, each replaced by [repl].  The search resumes where a match
    ended; [fuel] bounds the positions still to visit.  No pattern of
    the script matches the empty text, and an empty match is passed
    over. *)
Fixpoint sub_from (r : regex) (repl : text) (fuel : nat) (s : text)
  : text :=
  match fuel with
  | O => s
  | S fuel' =>
      match s with
      | [] => []
      | c :: s' =>
          match match_here r s with
          | Some rest =>
              if (length rest <? length s)%nat
              then repl ++ sub_from r repl fuel' rest
              else c :: sub_from r repl fuel' s'
          | None => c :: sub_from r repl fuel' s'
          end
      end
  end.

Definition re_sub (r : regex) (repl : text) (s : text) : text :=
  sub_from r repl (length s) s.

(** [re.search(r, s) is not None]. *)
Fixpoint re_search (r : regex) (s : text) : bool :=
  match match_here r s with
  | Some _ => true
  | None =>
      match s with
      | [] => false
      | _ :: s' => re_search r s'
      end
  end.
End Regex.

(** A literal word of a pattern. *)
Definition lits (s : string) : regex := map (fun c => (Lit c, One)) (cp s).

(** ** The preprocessor ([preprocess_sql_statement]) *)

(** [r"USING\s+BTREE"] *)
Definition rule_using_btree : regex :=
  lits "USING" ++ [(Space, Plus)] ++ lits "BTREE".

(** [r"ON\s+UPDATE\s+CURRENT_TIMESTAMP"] *)
Definition rule_on_update : regex :=
  lits "ON" ++ [(Space, Plus)] ++ lits "UPDATE" ++ [(Space, Plus)]
  ++ lits "CURRENT_TIMESTAMP".

(** [r"ROW_FORMAT\s*=\s*\w+"] *)
Definition rule_row_format : regex :=
  lits "ROW_FORMAT" ++ [(Space, Star)] ++ lits "=" ++ [(Space, Star)]
  ++ [(Word, Plus)].

(** [r"AUTO_INCREMENT\s*=\s*\d+"] *)
Definition rule_auto_increment : regex :=
  lits "AUTO_INCREMENT" ++ [(Space, Star)] ++ lits "=" ++ [(Space, Star)]
  ++ [(Digit, Plus)].

Definition rules : list regex :=
  [rule_using_btree; rule_on_update; rule_row_format; rule_auto_increment].

(** The value [preprocess_sql_statement] returns: the four substitutions,
    in the order of the source. *)
Definition preprocess_sql_statement (U : unicode_tables) (sql : text) : text :=
  let processed_sql := sql in
  let processed_sql := re_sub U rule_using_btree [] processed_sql in
  let processed_sql := re_sub U rule_on_update [] processed_sql in
  let processed_sql := re_sub U rule_row_format [] processed_sql in
  let processed_sql := re_sub U rule_auto_increment [] processed_sql in
  processed_sql.

(** Some rule still matches somewhere in [sql]. *)
Definition any_rule_matches (U : unicode_tables) (sql : text) : bool :=
  existsb (fun r => re_search U r sql) rules.

(** A pattern whose first item takes at least one character. *)
Definition starts_with_character (r : regex) : bool :=
  match r with
  | (_, One) :: _ => true
  | (_, Plus) :: _ => true
  | _ => false
  end.

(** Rules applied in order, each removing its matches. *)
Definition apply_rules (U : unicode_tables) (rs : list regex) (s : text)
  : text :=
  foldl (fun s r => re_sub U r [] s) s rs.

(** ** The global charset rewrite *)

(** [r'utf8mb4'] *)
Definition charset_pattern : regex := lits "utf8mb4".

(** [re.sub(r'utf8mb4', 'UTF8', sql_content, flags=re.IGNORECASE)] *)
Definition replace_charset (U : unicode_tables) (sql_content : text) : text :=
  re_sub U charset_pattern (cp "UTF8") sql_content.

(** [occ] is an occurrence of the seven characters, in any casing. *)
Definition is_utf8mb4 (occ : text) : bool :=
  (length occ =? 7)%nat
  && forallb (fun p => lit_match (fst p) (snd p)) (zip (cp "utf8mb4") occ).

(** ** Exceptions, logging and the state of a run *)

(** The exceptions of class [Exception] the script can meet. *)
Inductive exn : Type :=
  | FileNotFoundError
  | PermissionError
  | UnicodeDecodeError
  | ZeroDivisionError
  | IndexError
  | OtherError (name : string).

Inductive result (A : Type) : Type :=
  | Ok (a : A)
  | Raise (e : exn).
Arguments Ok {A} a.
Arguments Raise {A} e.

(** The quotient [a / b] of two integers is a double; it is kept as the
    two integers it is computed from, and not computed. *)
Record quotient : Type := {
  dividend : nat;
  divisor : nat
}.

Inductive level : Type := INFO | WARNING | ERROR.

(** One constructor per [logging] call of the script, with the values its
    message is formatted from; the success rate logged is the double
    [ratio * 100].  The log of a run holds the records the script emits:
    what the logger of sqlglot writes to the same handlers is not part of
    it. *)
Inductive message : Type :=
  | MsgStart (input_file : string)
  | MsgCharsetStart
  | MsgCharsetDone
  | MsgDetected (total_statements : nat)
  | MsgPreprocessApplied (original processed : text)
  | MsgUnparsable (i total_statements : nat)
  | MsgDirectFailed (i total_statements : nat) (e : exn)
  | MsgStillFailed (i total_statements : nat) (e2 : exn) (original_sql : text)
  | MsgStatsHeader
  | MsgTotal (n : nat)
  | MsgDirect (n : nat)
  | MsgPreprocessed (n : nat)
  | MsgFailed (n : nat)
  | MsgSuccessRate (ratio : quotient)
  | MsgDone (output_file : string)
  | MsgInputNotFound (input_file : string)
  | MsgUnknownError (e : exn).

(** What a path of the file system holds: a text that can be read and
    written; a file that cannot be opened at all; a file whose bytes are
    not UTF-8 (it opens, and can be overwritten); a text that can be read
    but not opened for writing; a path under a directory that does not
    exist.  A path that holds nothing can be created. *)
Inductive file : Type :=
  | Readable (content : text)
  | Denied
  | Undecodable
  | ReadOnly (content : text)
  | NoDirectory.

(** [open(path, 'w')] succeeds on what the path holds. *)
Definition opens_for_writing (held : option file) : bool :=
  match held with
  | Some Denied => false
  | Some (ReadOnly _) => false
  | Some NoDirectory => false
  | _ => true
  end.

(** The calls a run makes to the translator and to the preprocessor, in
    order: a ghost trace, kept to state which text each call is given. *)
Inductive call : Type :=
  | CallTranspile (sql : text)
  | CallPreprocess (sql : text).

Record run_state : Type := {
  successful_direct : nat;
  successful_preprocessed : nat;
  failed_conversions : nat;
  f_out : list text;
  log : list (level * message);
  fs : gmap string file;
  calls : list call
}.

(** The front end and the translator of sqlglot, which the script calls:
    [sqlglot.parse(_, read='mysql', error_level='ignore')] gives a list
    whose items are expressions or not ([None]); [expr.sql()];
    [transpile(_, read='mysql', write=dameng_dialect, pretty=True)]. *)
Record frontend : Type := {
  expr : Type;
  parse : text -> result (list (option expr));
  expr_sql : expr -> text;
  transpile : text -> result (list text)
}.

(** State passing with exceptions: what a step did to the state stays done
    when it raises. *)
Definition M (A : Type) : Type := run_state -> result A * run_state.

Definition ret {A} (a : A) : M A := fun st => (Ok a, st).
Definition raise {A} (e : exn) : M A := fun st => (Raise e, st).
Definition bind {A B} (m : M A) (k : A -> M B) : M B :=
  fun st =>
    match m st with
    | (Ok a, st') => k a st'
    | (Raise e, st') => (Raise e, st')
    end.
Definition try_except {A} (m : M A) (handler : exn -> M A) : M A :=
  fun st =>
    match m st with
    | (Ok a, st') => (Ok a, st')
    | (Raise e, st') => handler e st'
    end.
Definition lift {A} (r : result A) : M A := fun st => (r, st).

Notation "'let!' x ':=' m 'in' k" := (bind m (fun x => k))
  (at level 10, x name, m at level 100, k at level 200).
Notation "m ';;' k" := (bind m (fun _ => k))
  (at level 100, k at level 200, right associativity).

Definition logging (l : level) (m : message) : M unit :=
  fun st => (Ok tt,
    {| successful_direct := successful_direct st;
       successful_preprocessed := successful_preprocessed st;
       failed_conversions := failed_conversions st;
       f_out := f_out st;
       log := log st ++ [(l, m)];
       fs := fs st;
       calls := calls st |}).

Definition write (s : text) : M unit :=
  fun st => (Ok tt,
    {| successful_direct := successful_direct st;
       successful_preprocessed := successful_preprocessed st;
       failed_conversions := failed_conversions st;
       f_out := f_out st ++ [s];
       log := log st;
       fs := fs st;
       calls := calls st |}).

Definition incr_successful_direct : M unit :=
  fun st => (Ok tt,
    {| successful_direct := successful_direct st + 1;
       successful_preprocessed := successful_preprocessed st;
       failed_conversions := failed_conversions st;
       f_out := f_out st;
       log := log st;
       fs := fs st;
       calls := calls st |}).

Definition incr_successful_preprocessed : M unit :=
  fun st => (Ok tt,
    {| successful_direct := successful_direct st;
       successful_preprocessed := successful_preprocessed st + 1;
       failed_conversions := failed_conversions st;
       f_out := f_out st;
       log := log st;
       fs := fs st;
       calls := calls st |}).

Definition incr_failed_conversions : M unit :=
  fun st => (Ok tt,
    {| successful_direct := successful_direct st;
       successful_preprocessed := successful_preprocessed st;
       failed_conversions := failed_conversions st + 1;
       f_out := f_out st;
       log := log st;
       fs := fs st;
       calls := calls st |}).

Definition record_call (c : call) : M unit :=
  fun st => (Ok tt,
    {| successful_direct := successful_direct st;
       successful_preprocessed := successful_preprocessed st;
       failed_conversions := failed_conversions st;
       f_out := f_out st;
       log := log st;
       fs := fs st;
       calls := calls st ++ [c] |}).

Definition set_fs (m : gmap string file) : M unit :=
  fun st => (Ok tt,
    {| successful_direct := successful_direct st;
       successful_preprocessed := successful_preprocessed st;
       failed_conversions := failed_conversions st;
       f_out := f_out st;
       log := log st;
       fs := m;
       calls := calls st |}).

Definition get_state : M run_state := fun st => (Ok st, st).

(** [l[0]] *)
Definition first_item {A} (l : list A) : result A :=
  match l with
  | x :: _ => Ok x
  | [] => Raise IndexError
  end.

(** [a / b] on integers. *)
Definition true_div (a b : nat) : result quotient :=
  match b with
  | O => Raise ZeroDivisionError
  | S _ => Ok {| dividend := a; divisor := b |}
  end.

(** What the [with] statement does when its block is left, normally or by
    an exception. *)
Definition finally {A} (m : M A) (cleanup : M unit) : M A :=
  fun st =>
    match m st with
    | (r, st') => (r, (cleanup st').2)
    end.

(** [';\n'] *)
Definition terminator : text := cp ";" ++ [10].


(** ** The conversion pipeline ([convert_mysql_to_dameng]) *)

Section Pipeline.
Variable U : unicode_tables.
Variable F : frontend.

(** A call of [transpile], recorded in the ghost trace. *)
Definition call_transpile (sql : text) : M (list text) :=
  record_call (CallTranspile sql) ;;
  lift (transpile F sql).

(** A call of [preprocess_sql_statement]: recorded in the ghost trace;
    the rules are applied, an INFO record is logged when they changed the
    text, and the processed text is returned. *)
Definition call_preprocess_sql_statement (sql : text) : M text :=
  record_call (CallPreprocess sql) ;;
  let original_sql := sql in
  let processed_sql := preprocess_sql_statement U sql in
  (if bool_decide (processed_sql = original_sql) then ret tt
   else logging INFO
          (MsgPreprocessApplied (take 100 original_sql)
                                (take 100 processed_sql))) ;;
  ret processed_sql.

(** The body of the loop over [enumerate(expressions)]. *)
Definition process_statement (total_statements i : nat)
    (item : option (expr F)) : M unit :=
  match item with
  | None =>
      incr_failed_conversions ;;
      logging WARNING (MsgUnparsable (i + 1) total_statements)
  | Some e =>
      let original_sql := expr_sql F e in
      try_except
        (let! translated := call_transpile original_sql in
         let! dameng_sql := lift (first_item translated) in
         write (dameng_sql ++ terminator) ;;
         incr_successful_direct)
        (fun err =>
           logging WARNING (MsgDirectFailed (i + 1) total_statements err) ;;
           try_except
             (let! preprocessed_sql :=
                call_preprocess_sql_statement original_sql in
              let! translated := call_transpile preprocessed_sql in
              let! dameng_sql := lift (first_item translated) in
              write (dameng_sql ++ terminator) ;;
              incr_successful_preprocessed)
             (fun err2 =>
                incr_failed_conversions ;;
                logging ERROR
                  (MsgStillFailed (i + 1) total_statements err2
                                  original_sql)))
  end.

(** [for i, expr in enumerate(expressions): ...], from index [i] on. *)
Fixpoint for_each (total_statements i : nat)
    (expressions : list (option (expr F))) : M unit :=
  match expressions with
  | [] => ret tt
  | item :: rest =>
      process_statement total_statements i item ;;
      for_each total_statements (S i) rest
  end.

(** [open(input_file, 'r', encoding='utf-8')] *)
Definition open_read (input_file : string) : M unit :=
  let! st := get_state in
  match fs st !! input_file with
  | None => raise FileNotFoundError
  | Some NoDirectory => raise FileNotFoundError
  | Some Denied => raise PermissionError
  | Some _ => ret tt
  end.

(** [open(output_file, 'w', encoding='utf-8')]: the file is created or
    emptied, when it can be. *)
Definition open_write (output_file : string) : M unit :=
  let! st := get_state in
  match fs st !! output_file with
  | Some Denied => raise PermissionError
  | Some (ReadOnly _) => raise PermissionError
  | Some NoDirectory => raise FileNotFoundError
  | _ => set_fs (<[output_file := Readable []]> (fs st))
  end.

(** [f_in.read()] *)
Definition read (input_file : string) : M text :=
  let! st := get_state in
  match fs st !! input_file with
  | Some (Readable content) => ret content
  | Some (ReadOnly content) => ret content
  | Some Undecodable => raise UnicodeDecodeError
  | Some Denied => raise PermissionError
  | Some NoDirectory => raise FileNotFoundError
  | None => raise FileNotFoundError
  end.

(** The output file is closed: it holds the texts written, in order. *)
Definition close_output (output_file : string) : M unit :=
  let! st := get_state in
  set_fs (<[output_file := Readable (concat (f_out st))]> (fs st)).

(** The [with] block: the two files are opened, the script is read and
    rewritten, parsed, and its statements are converted in order; the
    output file is closed however the block is left.  It gives
    [total_statements]. *)
Definition with_files (input_file output_file : string) : M nat :=
  open_read input_file ;;
  open_write output_file ;;
  finally
    (let! sql_content := read input_file in
     logging INFO MsgCharsetStart ;;
     let original_size := length sql_content in
     let sql_content := replace_charset U sql_content in
     (if bool_decide (length sql_content = original_size) then ret tt
      else logging INFO MsgCharsetDone) ;;
     let! expressions := lift (parse F sql_content) in
     let total_statements := length expressions in
     logging INFO (MsgDetected total_statements) ;;
     for_each total_statements 0 expressions ;;
     ret total_statements)
    (close_output output_file).

(** The statistics logged after the [with] block. *)
Definition report (total_statements : nat) (output_file : string)
  : M unit :=
  let! st := get_state in
  logging INFO MsgStatsHeader ;;
  logging INFO (MsgTotal total_statements) ;;
  logging INFO (MsgDirect (successful_direct st)) ;;
  logging INFO (MsgPreprocessed (successful_preprocessed st)) ;;
  logging INFO (MsgFailed (failed_conversions st)) ;;
  let! ratio :=
    lift (true_div (successful_direct st + successful_preprocessed st)
                   total_statements) in
  let success_rate := ratio in
  logging INFO (MsgSuccessRate success_rate) ;;
  logging INFO (MsgDone output_file).

(** The state a run starts from, once [setup_logging()] has opened an
    empty log: the three counters are zero and nothing was written. *)
Definition initial_state (files : gmap string file) : run_state :=
  {| successful_direct := 0;
     successful_preprocessed := 0;
     failed_conversions := 0;
     f_out := [];
     log := [];
     fs := files;
     calls := [] |}.

(** [convert_mysql_to_dameng], from the point where [setup_logging()] and
    [Dameng()] have returned: the first record, then the [try] statement
    with its two handlers. *)
Definition convert_mysql_to_dameng (input_file output_file : string)
  : M unit :=
  logging INFO (MsgStart input_file) ;;
  try_except
    (let! total_statements := with_files input_file output_file in
     report total_statements output_file)
    (fun err =>
       match err with
       | FileNotFoundError => logging ERROR (MsgInputNotFound input_file)
       | _ => logging ERROR (MsgUnknownError err)
       end).

(** [if __name__ == "__main__"]: the run of the script on a file system. *)
Definition main (files : gmap string file) : result unit * run_state :=
  convert_mysql_to_dameng "mysql_ainemo.sql" "mysql_postgres.sql"
    (initial_state files).

(** The exit status of the interpreter: 0 when the script ends, 1 when an
    exception leaves it. *)
Definition exit_status (files : gmap string file) : nat :=
  match fst (main files) with
  | Ok _ => 0
  | Raise _ => 1
  end.
End Pipeline.

(** ** The outcome of a statement, in the words of the design document

    [Parsed -> DirectAttempt -> {DirectSuccess, DirectFailure}]; on
    [DirectFailure -> PreprocessAttempt -> {PreprocessedSuccess,
    PreprocessedFailure}]; a statement the front end could not parse is
    [Failed] at once. *)

Inductive ConversionResult : Type :=
  | DirectSuccess (renderedText : text)
  | PreprocessedSuccess (renderedText : text)
  | Failed.

(** An attempt: the first text the translator renders, when it renders
    one. *)
Definition attempt (F : frontend) (sql : text) : result text :=
  match transpile F sql with
  | Ok translated => first_item translated
  | Raise e => Raise e
  end.

Definition conversion_result (U : unicode_tables) (F : frontend)
    (item : option (expr F)) : ConversionResult :=
  match item with
  | None => Failed
  | Some e =>
      match attempt F (expr_sql F e) with
      | Ok rendered => DirectSuccess rendered
      | Raise _ =>
          match attempt F (preprocess_sql_statement U (expr_sql F e)) with
          | Ok rendered => PreprocessedSuccess rendered
          | Raise _ => Failed
          end
      end
  end.

(** The text the output holds for a statement: none when it failed. *)
Definition rendered (c : ConversionResult) : option text :=
  match c with
  | DirectSuccess renderedText => Some renderedText
  | PreprocessedSuccess renderedText => Some renderedText
  | Failed => None
  end.

(** The counter a result adds one to: direct successes, preprocessed
    successes, failures. *)
Definition tally (c : ConversionResult) : nat * nat * nat :=
  match c with
  | DirectSuccess _ => (1, 0, 0)%nat
  | PreprocessedSuccess _ => (0, 1, 0)%nat
  | Failed => (0, 0, 1)%nat
  end.

(** The calls a statement gives rise to: the direct attempt and, when it
    fails, the preprocessor and the second attempt. *)
Definition calls_of (U : unicode_tables) (F : frontend)
    (item : option (expr F)) : list call :=
  match item with
  | None => []
  | Some e =>
      let original_sql := expr_sql F e in
      match attempt F original_sql with
      | Ok _ => [CallTranspile original_sql]
      | Raise _ =>
          [CallTranspile original_sql;
           CallPreprocess original_sql;
           CallTranspile (preprocess_sql_statement U original_sql)]
      end
  end.

(** [needle in hay] *)
Fixpoint occurs_in (needle hay : text) : bool :=
  bool_decide (take (length needle) hay = needle)
  || match hay with
     | [] => false
     | _ :: hay' => occurs_in needle hay'
     end.

(** ** The type registry of the DaMeng generator ([Generator.TYPE_MAPPING])

    A member of [exp.DataType.Type] is named by its name.  The registry is
    a dict display: the items of Oracle's registry first, then the items
    of the source in their order, a later item replacing an earlier one
    with the same key. *)

Definition dict_display (base : gmap string string)
    (items : list (string * string)) : gmap string string :=
  foldl (fun d kv => <[kv.1 := kv.2]> d) base items.

(** The value the last item with key [k] gives, if there is one. *)
Fixpoint find_item (k : string) (items : list (string * string))
  : option string :=
  match items with
  | [] => None
  | (k', v) :: rest =>
      match find_item k rest with
      | Some v' => Some v'
      | None => if String.eqb k' k then Some v else None
      end
  end.

Definition TYPE_MAPPING (Oracle_TYPE_MAPPING : gmap string string)
  : gmap string string :=
  dict_display Oracle_TYPE_MAPPING
    [ ("TINYINT", "TINYINT"); ("SMALLINT", "SMALLINT"); ("INT", "INT");
      ("BIGINT", "BIGINT"); ("FLOAT", "FLOAT"); ("DOUBLE", "DOUBLE");
      ("DECIMAL", "DECIMAL"); ("NUMBER", "NUMBER"); ("REAL", "REAL");
      ("CHAR", "CHAR"); ("VARCHAR", "VARCHAR"); ("NVARCHAR", "NVARCHAR2");
      ("TEXT", "TEXT"); ("CLOB", "CLOB"); ("LONGTEXT", "TEXT");
      ("BINARY", "BINARY"); ("VARBINARY", "VARBINARY"); ("BLOB", "BLOB");
      ("LONGBLOB", "BLOB");
      ("DATE", "DATE"); ("TIME", "TIME"); ("DATETIME", "DATETIME");
      ("TIMESTAMP", "TIMESTAMP");
      ("TIMESTAMPTZ", "TIMESTAMP WITH TIME ZONE");
      ("TIMESTAMPLTZ", "TIMESTAMP WITH LOCAL TIME ZONE");
      ("BOOLEAN", "BOOLEAN"); ("JSON", "JSON"); ("XML", "XML");
      ("MEDIUMINT", "INT"); ("MEDIUMTEXT", "TEXT"); ("TINYTEXT", "TEXT");
      ("TINYBLOB", "BLOB"); ("YEAR", "SMALLINT"); ("ENUM", "VARCHAR");
      ("SET", "VARCHAR") ]%string.

(** Modelled from the spec: the generator's rendering of a type
    ([renderType(AbstractType) -> string]; the generator that reads the
    registry is not among the sources).  The registry's entry is the
    rendering, and a type without an entry falls back to the generic
    default, its own name. *)
Definition renderType (registry : gmap string string) (ty : string)
  : string :=
  default ty (registry !! ty).

(** ** A small front end, for running the definitions

    A stand-in, not sqlglot.  Statements are separated by [;]; an empty
    statement is not an expression; an expression renders as its own
    text; the translator renders a text as it is, and rejects one that
    holds a [?] or an option the preprocessor strips. *)

Fixpoint split_statements (acc : text) (s : text) : list text :=
  match s with
  | [] => [acc]
  | c :: s' =>
      if c =? 59 then acc :: split_statements [] s'
      else split_statements (acc ++ [c]) s'
  end.

Definition demo_frontend : frontend := {|
  expr := text;
  parse := fun s =>
    Ok (map (fun t => match t with [] => None | _ => Some t end)
            (split_statements [] s));
  expr_sql := fun e => e;
  transpile := fun s =>
    if existsb (N.eqb 63) s || any_rule_matches ascii_tables s
    then Raise (OtherError "ParseError")
    else Ok [s]
|}.

Definition demo_script : text :=
  cp "SELECT 1;CREATE TABLE t (a INT) CHARSET=utf8mb4 ROW_FORMAT=DYNAMIC;?".

Definition demo_files : gmap string file :=
  {[ "mysql_ainemo.sql"%string := Readable demo_script ]}.

(** [s] ends with [suffix]. *)
Definition ends_with (suffix s : text) : bool :=
  bool_decide (drop (length s - length suffix) s = suffix).

(** A front end that follows sqlglot on the two scripts run below.  The
    empty script parses to one item that is not an expression.  A SELECT
    whose FROM names no table is parsed all the same, the errors being
    ignored, and renders as its own text; the translator, whose parser
    raises at the first error, rejects that text. *)
Definition strict_frontend : frontend := {|
  expr := text;
  parse := fun s =>
    Ok (map (fun t => match t with [] => None | _ => Some t end)
            (split_statements [] s));
  expr_sql := fun e => e;
  transpile := fun s =>
    if ends_with (cp " FROM") s
    then Raise (OtherError "ParseError")
    else Ok [s]
|}.

(** A script of one statement that holds [utf8mb4] and whose FROM names no
    table, and the empty script. *)
Definition charset_script : text := cp "SELECT 'utf8mb4' FROM".

Definition charset_files : gmap string file :=
  {[ "mysql_ainemo.sql"%string := Readable charset_script ]}.


(** A front end whose parser raises. *)
Definition failing_frontend : frontend := {|
  expr := text;
  parse := fun _ => Raise (OtherError "TokenError");
  expr_sql := fun e => e;
  transpile := fun s => Ok [s]
|}.

(** A file system with a script of one statement, and one with a file
    that is not UTF-8. *)
Definition small_files : gmap string file :=
  {[ "in.sql"%string := Readable (cp "SELECT 1") ]}.

Definition missing_directory_files : gmap string file :=
  {[ "in.sql"%string := Readable (cp "SELECT 1");
     "out/out.sql"%string := NoDirectory ]}.

Definition binary_files : gmap string file :=
  {[ "in.sql"%string := Undecodable ]}.

(** ** Counting the results of a script *)

Definition is_direct (c : ConversionResult) : bool :=
  match c with DirectSuccess _ => true | _ => false end.
Definition is_preprocessed (c : ConversionResult) : bool :=
  match c with PreprocessedSuccess _ => true | _ => false end.
Definition is_failed (c : ConversionResult) : bool :=
  match c with Failed => true | _ => false end.

(** The number of statements whose result is of a kind. *)
Definition count_results (U : unicode_tables) (F : frontend)
    (kind : ConversionResult -> bool)
    (expressions : list (option (expr F))) : nat :=
  length (List.filter (fun item => kind (conversion_result U F item))
            expressions).

Definition is_preprocess_call (c : call) : bool :=
  match c with CallPreprocess _ => true | CallTranspile _ => false end.

(** The statements that are expressions. *)
Definition is_expression {A} (item : option A) : bool :=
  match item with Some _ => true | None => false end.

(** ** The clause renderers of the DaMeng generator

    [self.sql(expression, key)], the rendering of the part [key] of a
    node, belongs to the generator the class extends. *)

Section Generator.
Variable node : Type.
Variable sql : node -> string -> string.

(** [limit_sql(self, expression, top=False)] *)
Definition limit_sql (expression : node) (top : bool) : string :=
  if top then String.append "TOP " (sql expression "expression")
  else String.append "LIMIT " (sql expression "expression").

(** [offset_sql(self, expression)] *)
Definition offset_sql (expression : node) : string :=
  String.append "OFFSET " (sql expression "expression").

(** [autoincrementcolumnconstraint_sql(self, expression)] *)
Definition autoincrementcolumnconstraint_sql (expression : node) : string :=
  "IDENTITY".
End Generator.

Example preprocess_scenario_A :
  preprocess_sql_statement ascii_tables
    (cp "CREATE TABLE t (id INT) ENGINE=InnoDB ROW_FORMAT=COMPRESSED AUTO_INCREMENT=5")
  = cp "CREATE TABLE t (id INT) ENGINE=InnoDB  ".
Proof. vm_compute. reflexivity. Qed.

Example preprocess_scenario_C :
  preprocess_sql_statement ascii_tables
    (cp "ALTER TABLE t ADD INDEX idx (a) using   btree")
  = cp "ALTER TABLE t ADD INDEX idx (a) ".
Proof. vm_compute. reflexivity. Qed.

Example replace_charset_collation :
  replace_charset ascii_tables (cp "COLLATE Utf8MB4_general_ci 'utf8mb4'")
  = cp "COLLATE UTF8_general_ci 'UTF8'".
Proof. vm_compute. reflexivity. Qed.

(** ** Properties of the regular expressions *)

Section RegexFacts.
Variable U : unicode_tables.

Lemma match_star_length (a : atom) (k : text -> option text) :
  (forall s rest, k s = Some rest -> (length rest <= length s)%nat) ->
  forall s rest,
    match_star U a k s = Some rest -> (length rest <= length s)%nat.
Proof.
  intros Hk s. induction s as [|c s IH]; intros rest; simpl.
  - apply Hk.
  - destruct (atom_match U a c).
    + destruct (match_star U a k s) as [r|] eqn:E.
      * intros [= <-]. specialize (IH r eq_refl). lia.
      * intros H. apply Hk in H. simpl in H. lia.
    + intros H. apply Hk in H. simpl in H. lia.
Qed.

(** What follows a match is no longer than the text. *)
Lemma match_here_length (r : regex) :
  forall s rest,
    match_here U r s = Some rest -> (length rest <= length s)%nat.
Proof.
  induction r as [|[a q] r IH]; intros s rest; simpl.
  - intros [= <-]. lia.
  - destruct q.
    + destruct s as [|c s]; [discriminate|].
      destruct (atom_match U a c); [|discriminate].
      intros H. apply IH in H. simpl. lia.
    + destruct s as [|c s]; [discriminate|].
      destruct (atom_match U a c); [|discriminate].
      intros H. apply (match_star_length a _ IH) in H. simpl. lia.
    + apply (match_star_length a _ IH).
Qed.

Lemma match_here_shorter (r : regex) (s rest : text) :
  starts_with_character r = true ->
  match_here U r s = Some rest -> (length rest < length s)%nat.
Proof.
  destruct r as [|[a q] r]; [discriminate|].
  destruct q; [| |discriminate]; intros _; simpl;
    (destruct s as [|c s]; [discriminate|]);
    (destruct (atom_match U a c); [|discriminate]); intros H.
  - apply match_here_length in H. simpl. lia.
  - apply (match_star_length a _ (match_here_length r)) in H. simpl. lia.
Qed.

(** Any fuel that covers the text gives the same result. *)
Lemma sub_from_fuel (r : regex) (repl : text) :
  forall f1 f2 s,
    (length s <= f1)%nat -> (length s <= f2)%nat ->
    sub_from U r repl f1 s = sub_from U r repl f2 s.
Proof.
  induction f1 as [|f1 IH]; intros f2 s H1 H2.
  - destruct s; [|simpl in H1; lia]. destruct f2; reflexivity.
  - destruct f2 as [|f2].
    + destruct s; [reflexivity|simpl in H2; lia].
    + simpl. destruct s as [|c s]; [reflexivity|].
      simpl in H1, H2.
      destruct (match_here U r (c :: s)) as [rest|].
      * destruct (length rest <? length (c :: s))%nat eqn:E.
        -- apply Nat.ltb_lt in E. simpl in E.
           f_equal. apply IH; lia.
        -- f_equal. apply IH; lia.
      * f_equal. apply IH; lia.
Qed.

(** The equation of [re_sub] on a text that is not empty. *)
Lemma re_sub_cons (r : regex) (repl : text) (c : char) (s : text) :
  re_sub U r repl (c :: s) =
  match match_here U r (c :: s) with
  | Some rest =>
      if (length rest <? length (c :: s))%nat
      then repl ++ re_sub U r repl rest
      else c :: re_sub U r repl s
  | None => c :: re_sub U r repl s
  end.
Proof.
  unfold re_sub. simpl.
  destruct (match_here U r (c :: s)) as [rest|]; [|reflexivity].
  destruct (length rest <? S (length s))%nat eqn:E; [|reflexivity].
  apply Nat.ltb_lt in E.
  f_equal. apply sub_from_fuel; lia.
Qed.

Lemma re_sub_nil (r : regex) (repl : text) : re_sub U r repl [] = [].
Proof. reflexivity. Qed.

(** Without a match the text is returned as it is. *)
Lemma re_sub_no_match (r : regex) (repl : text) (s : text) :
  re_search U r s = false -> re_sub U r repl s = s.
Proof.
  induction s as [|c s IH]; [reflexivity|].
  intros H. rewrite re_sub_cons. simpl in H.
  destruct (match_here U r (c :: s)); [discriminate|].
  rewrite IH; [reflexivity|]. exact H.
Qed.

(** Removing matches never makes the text longer. *)
Lemma re_sub_remove_length (r : regex) :
  forall n s, (length s <= n)%nat ->
    (length (re_sub U r [] s) <= length s)%nat.
Proof.
  induction n as [|n IH]; intros s Hn.
  - destruct s; [simpl; lia|simpl in Hn; lia].
  - destruct s as [|c s]; [simpl; lia|].
    rewrite re_sub_cons. simpl in Hn.
    destruct (match_here U r (c :: s)) as [rest|].
    + destruct (length rest <? length (c :: s))%nat eqn:E.
      * apply Nat.ltb_lt in E. simpl in E. simpl app.
        specialize (IH rest). simpl. lia.
      * simpl. specialize (IH s). lia.
    + simpl. specialize (IH s). lia.
Qed.

(** Removing the matches of a pattern that matches somewhere makes the
    text shorter. *)
Lemma re_sub_remove_shorter (r : regex) :
  starts_with_character r = true ->
  forall s, re_search U r s = true ->
    (length (re_sub U r [] s) < length s)%nat.
Proof.
  intros Hr. induction s as [|c s IH]; intros H.
  - simpl in H. destruct (match_here U r []) as [rest|] eqn:E;
      [|discriminate].
    apply (match_here_shorter _ _ _ Hr) in E. simpl in E. lia.
  - rewrite re_sub_cons. simpl in H.
    destruct (match_here U r (c :: s)) as [rest|] eqn:E.
    + pose proof (match_here_shorter _ _ _ Hr E) as Hlt.
      apply Nat.ltb_lt in Hlt. rewrite Hlt. apply Nat.ltb_lt in Hlt.
      simpl app.
      pose proof (re_sub_remove_length r _ rest (Nat.le_refl _)). lia.
    + simpl. specialize (IH H). lia.
Qed.

Lemma apply_rules_length (rs : list regex) :
  forall s, (length (apply_rules U rs s) <= length s)%nat.
Proof.
  induction rs as [|r rs IH]; intros s; unfold apply_rules; simpl; [lia|].
  specialize (IH (re_sub U r [] s)).
  pose proof (re_sub_remove_length r _ s (Nat.le_refl _)).
  unfold apply_rules in IH. lia.
Qed.

Lemma apply_rules_no_match (rs : list regex) :
  forall s, existsb (fun r => re_search U r s) rs = false ->
    apply_rules U rs s = s.
Proof.
  induction rs as [|r rs IH]; intros s H; [reflexivity|].
  simpl in H. apply orb_false_iff in H as [H1 H2].
  unfold apply_rules. simpl. rewrite (re_sub_no_match r [] s H1).
  apply IH, H2.
Qed.

Lemma apply_rules_shorter (rs : list regex) :
  forallb starts_with_character rs = true ->
  forall s, existsb (fun r => re_search U r s) rs = true ->
    (length (apply_rules U rs s) < length s)%nat.
Proof.
  induction rs as [|r rs IH]; intros Hrs s H; [discriminate|].
  simpl in Hrs. apply andb_true_iff in Hrs as [Hr Hrs].
  simpl in H. unfold apply_rules. simpl.
  destruct (re_search U r s) eqn:E.
  - pose proof (re_sub_remove_shorter r Hr s E).
    pose proof (apply_rules_length rs (re_sub U r [] s)).
    unfold apply_rules in *. lia.
  - rewrite (re_sub_no_match r [] s E). apply IH; assumption.
Qed.

Lemma preprocess_is_apply_rules (sql : text) :
  preprocess_sql_statement U sql = apply_rules U rules sql.
Proof. reflexivity. Qed.

(** The preprocessor leaves a text as it is exactly when no rule matches
    in it. *)
Lemma preprocess_fixed_point (sql : text) :
  preprocess_sql_statement U sql = sql <->
  any_rule_matches U sql = false.
Proof.
  rewrite preprocess_is_apply_rules. unfold any_rule_matches. split.
  - intros H.
    destruct (existsb (fun r => re_search U r sql) rules) eqn:E;
      [|reflexivity].
    apply apply_rules_shorter in E; [|reflexivity].
    rewrite H in E. lia.
  - apply apply_rules_no_match.
Qed.
End RegexFacts.

(** ** The preprocessor *)

(** C1, as the design document states it, fails: on
    [USING USING BTREE BTREE] the first pass removes the inner
    [USING BTREE] and leaves [USING  BTREE], which the second pass removes
    in turn.  This holds whatever the Unicode tables are. *)
Lemma preprocess_not_idempotent :
  (forall U, preprocess_sql_statement U (cp "USING USING BTREE BTREE")
             = cp "USING  BTREE")
  /\ (forall U, preprocess_sql_statement U
                  (preprocess_sql_statement U (cp "USING USING BTREE BTREE"))
                = [])
  /\ (forall U, preprocess_sql_statement U
                  (preprocess_sql_statement U (cp "USING USING BTREE BTREE"))
                <> preprocess_sql_statement U (cp "USING USING BTREE BTREE")).
Proof.
  assert (H1 : forall U, preprocess_sql_statement U
                           (cp "USING USING BTREE BTREE")
                         = cp "USING  BTREE").
  { intros U. vm_compute. reflexivity. }
  assert (H2 : forall U, preprocess_sql_statement U (cp "USING  BTREE") = []).
  { intros U. vm_compute. reflexivity. }
  split; [exact H1|]. split.
  - intros U. rewrite H1. apply H2.
  - intros U. rewrite H1, H2. discriminate.
Qed.

(** C1, amended: applying the preprocessor a second time changes nothing
    exactly when its first result holds no match of any of the four
    patterns any more. *)
Theorem preprocess_twice_iff (U : unicode_tables) (x : text) :
  preprocess_sql_statement U (preprocess_sql_statement U x)
  = preprocess_sql_statement U x
  <-> any_rule_matches U (preprocess_sql_statement U x) = false.
Proof.
  apply preprocess_fixed_point.
Qed.

(** ** The global charset rewrite *)

Section CharsetFacts.
Variable U : unicode_tables.

Lemma lit_match_In (l c : char) :
  lit_match l c = true <-> In c (ignorecase_set l).
Proof.
  unfold lit_match. rewrite existsb_exists. split.
  - intros (x & Hx & E). apply N.eqb_eq in E. subst. exact Hx.
  - intros H. exists c. split; [exact H|apply N.eqb_refl].
Qed.

(** A pattern of literals matches the texts of its length whose
    characters match its literals one by one. *)
Lemma match_literals (l : text) :
  forall s rest,
    match_here U (map (fun c => (Lit c, One)) l) s = Some rest <->
    exists m, s = m ++ rest /\ length m = length l
              /\ forallb (fun p => lit_match p.1 p.2) (zip l m) = true.
Proof.
  induction l as [|a l IH]; intros s rest; simpl.
  - split.
    + intros [= <-]. exists []. auto.
    + intros (m & -> & Hm & _). destruct m; [reflexivity|discriminate].
  - destruct s as [|c s].
    + split; [discriminate|].
      intros (m & E & Hm & _). destruct m; discriminate.
    + destruct (lit_match a c) eqn:Ea.
      * rewrite IH. split.
        -- intros (m & -> & Hm & Hz). exists (c :: m). simpl.
           rewrite Ea, Hz, Hm. auto.
        -- intros (m & E & Hm & Hz). destruct m as [|c' m]; [discriminate|].
           simpl in E, Hm, Hz. injection E as -> ->.
           apply andb_true_iff in Hz as [_ Hz].
           exists m. auto.
      * split; [discriminate|].
        intros (m & E & Hm & Hz). destruct m as [|c' m]; [discriminate|].
        simpl in E, Hz. injection E as -> ->.
        rewrite Ea in Hz. discriminate.
Qed.

Lemma match_charset (s rest : text) :
  match_here U charset_pattern s = Some rest <->
  exists occ, s = occ ++ rest /\ is_utf8mb4 occ = true.
Proof.
  unfold charset_pattern, lits. rewrite match_literals.
  unfold is_utf8mb4. split; intros (m & E & H).
  - exists m. split; [exact E|]. destruct H as [Hm Hz].
    apply andb_true_iff. split; [|exact Hz].
    apply Nat.eqb_eq. rewrite Hm. reflexivity.
  - exists m. split; [exact E|]. apply andb_true_iff in H as [Hm Hz].
    apply Nat.eqb_eq in Hm. split; [rewrite Hm; reflexivity|exact Hz].
Qed.

(** The seven characters of an occurrence. *)
Lemma is_utf8mb4_inv (occ : text) :
  is_utf8mb4 occ = true ->
  exists c0 c1 c2 c3 c4 c5 c6,
    occ = [c0; c1; c2; c3; c4; c5; c6]
    /\ lit_match 117 c0 = true /\ lit_match 116 c1 = true
    /\ lit_match 102 c2 = true /\ lit_match 56 c3 = true
    /\ lit_match 109 c4 = true /\ lit_match 98 c5 = true
    /\ lit_match 52 c6 = true.
Proof.
  unfold is_utf8mb4. intros H. apply andb_true_iff in H as [Hn Hz].
  apply Nat.eqb_eq in Hn.
  destruct occ as [|c0 [|c1 [|c2 [|c3 [|c4 [|c5 [|c6 [|c7 occ]]]]]]]];
    try discriminate.
  change (cp "utf8mb4") with [117; 116; 102; 56; 109; 98; 52] in Hz.
  simpl in Hz.
  repeat (apply andb_true_iff in Hz as [? Hz]).
  exists c0, c1, c2, c3, c4, c5, c6. repeat split; assumption.
Qed.

(** No character is at once the first of an occurrence and a later
    one: an occurrence cannot overlap another. *)
Lemma first_character_distinct (c l : char) :
  In l [116; 102; 56; 109; 98; 52] ->
  lit_match 117 c = true -> lit_match l c = true -> False.
Proof.
  intros Hl H1 H2. apply lit_match_In in H1. apply lit_match_In in H2.
  vm_compute in H1.
  destruct H1 as [<-|[<-|[]]];
    simpl in Hl;
    repeat (destruct Hl as [<-|Hl]; [vm_compute in H2; intuition discriminate|]);
    contradiction.
Qed.

Lemma no_overlap (m rest pre occ post : text) :
  is_utf8mb4 m = true -> is_utf8mb4 occ = true ->
  m ++ rest = pre ++ occ ++ post ->
  pre <> [] -> (7 <= length pre)%nat.
Proof.
  intros Hm Ho E Hpre.
  destruct (le_lt_dec 7 (length pre)) as [|Hlt]; [assumption|exfalso].
  apply is_utf8mb4_inv in Hm
    as (m0 & m1 & m2 & m3 & m4 & m5 & m6 & -> & _ & M1 & M2 & M3 & M4 & M5 & M6).
  apply is_utf8mb4_inv in Ho
    as (o0 & o1 & o2 & o3 & o4 & o5 & o6 & -> & O0 & _).
  assert (Hj : ([m0; m1; m2; m3; m4; m5; m6] ++ rest) !! length pre
               = Some o0).
  { rewrite E. rewrite lookup_app_r by lia.
    replace (length pre - length pre)%nat with 0%nat by lia. reflexivity. }
  destruct pre as [|p0 pre]; [congruence|]. simpl in Hlt, Hj.
  destruct (length pre) as [|[|[|[|[|[|n]]]]]]; simpl in Hj;
    [injection Hj as -> ..|lia].
  - apply (first_character_distinct o0 116); simpl; auto 10.
  - apply (first_character_distinct o0 102); simpl; auto 10.
  - apply (first_character_distinct o0 56); simpl; auto 10.
  - apply (first_character_distinct o0 109); simpl; auto 10.
  - apply (first_character_distinct o0 98); simpl; auto 10.
  - apply (first_character_distinct o0 52); simpl; auto 10.
Qed.

Lemma charset_pattern_starts : starts_with_character charset_pattern = true.
Proof. reflexivity. Qed.

Lemma re_sub_charset_match (occ rest : text) :
  is_utf8mb4 occ = true ->
  re_sub U charset_pattern (cp "UTF8") (occ ++ rest)
  = cp "UTF8" ++ re_sub U charset_pattern (cp "UTF8") rest.
Proof.
  intros Ho.
  assert (Hm : match_here U charset_pattern (occ ++ rest) = Some rest).
  { apply match_charset. exists occ. auto. }
  pose proof (match_here_shorter U _ _ _ charset_pattern_starts Hm) as Hlt.
  destruct (occ ++ rest) as [|c s] eqn:E; [simpl in Hlt; lia|].
  rewrite re_sub_cons, Hm.
  apply Nat.ltb_lt in Hlt. rewrite Hlt. reflexivity.
Qed.

Lemma replace_charset_split (occ post : text) :
  is_utf8mb4 occ = true ->
  forall n pre, (length pre <= n)%nat ->
    replace_charset U (pre ++ occ ++ post)
    = replace_charset U pre ++ cp "UTF8" ++ replace_charset U post.
Proof.
  intros Ho. unfold replace_charset.
  induction n as [|n IH]; intros pre Hn.
  - destruct pre; [|simpl in Hn; lia].
    rewrite re_sub_nil. apply (re_sub_charset_match occ post Ho).
  - destruct pre as [|c pre].
    { rewrite re_sub_nil. apply (re_sub_charset_match occ post Ho). }
    simpl in Hn.
    destruct (match_here U charset_pattern ((c :: pre) ++ occ ++ post))
      as [rest|] eqn:Em.
    + pose proof Em as Em'.
      apply match_charset in Em' as (m & E & Hm).
      pose proof (no_overlap m rest (c :: pre) occ post Hm Ho (eq_sym E))
        as Hlen.
      specialize (Hlen ltac:(discriminate)).
      assert (Hm7 : length m = 7%nat).
      { apply is_utf8mb4_inv in Hm
          as (? & ? & ? & ? & ? & ? & ? & -> & _). reflexivity. }
      rewrite <- (take_drop 7 (c :: pre)) in E.
      rewrite <- app_assoc in E.
      apply app_inj_1 in E as [E1 E2];
        [|rewrite length_take; lia].
      rewrite <- (take_drop 7 (c :: pre)) at 1 2.
      rewrite E1. rewrite <- app_assoc.
      rewrite !(re_sub_charset_match m) by exact Hm.
      rewrite <- app_assoc. f_equal.
      apply IH. rewrite length_drop. simpl. lia.
    + assert (En : match_here U charset_pattern (c :: pre) = None).
      { destruct (match_here U charset_pattern (c :: pre)) as [r|] eqn:Er;
          [|reflexivity].
        apply match_charset in Er as (m & E & Hm).
        assert (X : match_here U charset_pattern
                      ((c :: pre) ++ occ ++ post)
                    = Some (r ++ occ ++ post)).
        { apply match_charset. exists m. split; [|exact Hm].
          rewrite E. rewrite <- app_assoc. reflexivity. }
        congruence. }
      change ((c :: pre) ++ occ ++ post) with (c :: (pre ++ occ ++ post))
        in *.
      rewrite !re_sub_cons, Em, En. simpl. f_equal.
      apply IH. lia.
Qed.
End CharsetFacts.

(** C10: wherever the seven characters [utf8mb4] occur in the raw script,
    in any casing and whatever surrounds them, the rewrite puts [UTF8] in
    their place, and rewrites what precedes and what follows on their
    own. *)
Theorem replace_charset_every_occurrence
    (U : unicode_tables) (pre occ post : text) :
  is_utf8mb4 occ = true ->
  replace_charset U (pre ++ occ ++ post)
  = replace_charset U pre ++ cp "UTF8" ++ replace_charset U post.
Proof.
  intros Ho. apply (replace_charset_split U occ post Ho (length pre)). lia.
Qed.

Lemma replace_charset_every_occurrence_witness :
  is_utf8mb4 (cp "Utf8MB4") = true
  /\ replace_charset ascii_tables
       (cp "COLLATE 'utf8mb4' " ++ cp "Utf8MB4" ++ cp "_general_ci")
     = replace_charset ascii_tables (cp "COLLATE 'utf8mb4' ") ++ cp "UTF8"
       ++ replace_charset ascii_tables (cp "_general_ci").
Proof.
  split; [reflexivity|].
  apply (replace_charset_every_occurrence ascii_tables
           (cp "COLLATE 'utf8mb4' ") (cp "Utf8MB4") (cp "_general_ci")).
  reflexivity.
Defined.

(** ** The conversion loop *)

Section PipelineFacts.
Variable U : unicode_tables.
Variable F : frontend.

Ltac step :=
  unfold process_statement, call_preprocess_sql_statement, call_transpile,
    try_except, bind, lift, ret, raise, record_call, write, logging,
    incr_successful_direct, incr_successful_preprocessed,
    incr_failed_conversions, attempt in *;
  simpl in *.

(** One pass of the loop body never raises, and leaves the state that
    the statement's result describes: one counter is one more, the
    rendered text (if any) is written with its terminator, the log is
    extended, the files are untouched. *)
Lemma process_statement_spec (total_statements i : nat)
    (item : option (expr F)) (st : run_state) :
  exists st',
    process_statement U F total_statements i item st = (Ok tt, st')
    /\ (successful_direct st', successful_preprocessed st',
        failed_conversions st')
       = (successful_direct st + (tally (conversion_result U F item)).1.1,
          successful_preprocessed st
          + (tally (conversion_result U F item)).1.2,
          failed_conversions st + (tally (conversion_result U F item)).2)%nat
    /\ f_out st'
       = f_out st
         ++ match rendered (conversion_result U F item) with
            | Some r => [r ++ terminator]
            | None => []
            end
    /\ calls st' = calls st ++ calls_of U F item
    /\ fs st' = fs st
    /\ exists entries, log st' = log st ++ entries.
Proof.
  destruct item as [e|]; unfold conversion_result, calls_of; step.
- destruct (transpile F (expr_sql F e)) as [[|r rest]|err] eqn:E1;
    simpl.
  2: { eexists. split; [reflexivity|]. simpl.
       rewrite ?Nat.add_0_r, ?app_nil_r.
       repeat split. exists []. rewrite app_nil_r. reflexivity. }
  all: destruct (bool_decide
                   (preprocess_sql_statement U (expr_sql F e)
                    = expr_sql F e)); simpl;
    destruct (transpile F (preprocess_sql_statement U (expr_sql F e)))
      as [[|r2 rest2]|err2] eqn:E2; simpl;
    eexists; (split; [reflexivity|]); simpl;
    rewrite ?Nat.add_0_r, ?app_nil_r, <- ?app_assoc; simpl;
    repeat split; eexists; reflexivity.
- eexists. split; [reflexivity|]. simpl.
  rewrite ?Nat.add_0_r, ?app_nil_r. repeat split.
  eexists. reflexivity.
Qed.
Lemma tally_one (c : ConversionResult) :
  ((tally c).1.1 + (tally c).1.2 + (tally c).2 = 1)%nat.
Proof. destruct c; reflexivity. Qed.

(** The loop never raises; it adds one to a counter per statement, writes
    the rendered texts of the statements that did not fail, in order, and
    makes the calls of each statement in order. *)
Lemma for_each_spec (total_statements : nat) :
  forall (expressions : list (option (expr F))) (i : nat) (st : run_state),
  exists st',
    for_each U F total_statements i expressions st = (Ok tt, st')
    /\ (successful_direct st' + successful_preprocessed st'
        + failed_conversions st'
        = successful_direct st + successful_preprocessed st
          + failed_conversions st + length expressions)%nat
    /\ f_out st'
       = f_out st
         ++ map (fun r => r ++ terminator)
              (omap (fun item => rendered (conversion_result U F item))
                    expressions)
    /\ calls st' = calls st ++ flat_map (calls_of U F) expressions
    /\ fs st' = fs st.
Proof.
  induction expressions as [|item rest IH]; intros i st.
  - exists st. simpl. rewrite !app_nil_r. repeat split. lia.
  - destruct (process_statement_spec total_statements i item st)
      as (st1 & E1 & Hc & Ho & Hk & Hf & _).
    destruct (IH (S i) st1) as (st2 & E2 & Hc2 & Ho2 & Hk2 & Hf2).
    exists st2. simpl. unfold bind at 1. rewrite E1.
    split; [exact E2|].
    injection Hc as Hd Hp Hfl.
    pose proof (tally_one (conversion_result U F item)).
    split; [simpl; lia|].
    split.
    { rewrite Ho2, Ho.
      destruct (rendered (conversion_result U F item)); simpl;
        rewrite <- app_assoc; reflexivity. }
    split.
    { rewrite Hk2, Hk, <- app_assoc. reflexivity. }
    congruence.
Qed.

(** The loop over a list in two parts is the loop over the first part,
    then over the second from the index reached. *)
Lemma for_each_app (total_statements : nat) :
  forall (xs ys : list (option (expr F))) (i : nat) (st : run_state),
    for_each U F total_statements i (xs ++ ys) st
    = (for_each U F total_statements i xs ;;
       for_each U F total_statements (i + length xs) ys) st.
Proof.
  induction xs as [|x xs IH]; intros ys i st.
  - simpl. unfold bind, ret. rewrite Nat.add_0_r. reflexivity.
  - simpl. unfold bind.
    destruct (process_statement U F total_statements i x st) as [[[]|e] st1].
    + rewrite IH. unfold bind.
      replace (S i + length xs)%nat with (i + S (length xs))%nat by lia.
      reflexivity.
    + reflexivity.
Qed.


(** C3: the preprocessor is called for a statement exactly when its direct
    attempt failed; when the direct attempt succeeds the translator is
    called once and the preprocessor not at all. *)
Theorem fallback_monotonicity (total_statements i : nat) (e : expr F)
    (st : run_state) :
  (forall rendered_text,
      attempt F (expr_sql F e) = Ok rendered_text ->
      calls (process_statement U F total_statements i (Some e) st).2
      = calls st ++ [CallTranspile (expr_sql F e)])
  /\ ((exists sql,
         In (CallPreprocess sql)
            (drop (length (calls st))
               (calls (process_statement U F total_statements i
                         (Some e) st).2)))
      <-> exists err, attempt F (expr_sql F e) = Raise err).
Proof.
  destruct (process_statement_spec total_statements i (Some e) st)
    as (st' & E & _ & _ & Hk & _).
  rewrite E. simpl. rewrite Hk, drop_app_length. simpl.
  destruct (attempt F (expr_sql F e)) as [r|err].
  - split; [reflexivity|]. split.
    + intros (sql & [H|[]]). discriminate.
    + intros (err & H). discriminate.
  - split; [discriminate|]. split.
    + eauto.
    + intros _. eexists. right. left. reflexivity.
Qed.


(** C6: whatever happened to the statements before it, a statement is
    processed, from the state they left, to a result that adds one to a
    counter; the statements after it are processed in turn, and the loop
    ends without raising, with every rendered text written. *)
Theorem failures_never_abort (total_statements i : nat)
    (before : list (option (expr F))) (item : option (expr F))
    (after : list (option (expr F))) (st : run_state) :
  exists st1 st2 st3,
    for_each U F total_statements i before st = (Ok tt, st1)
    /\ process_statement U F total_statements (i + length before) item st1
       = (Ok tt, st2)
    /\ (successful_direct st2 + successful_preprocessed st2
        + failed_conversions st2
        = successful_direct st1 + successful_preprocessed st1
          + failed_conversions st1 + 1)%nat
    /\ for_each U F total_statements (S (i + length before)) after st2
       = (Ok tt, st3)
    /\ for_each U F total_statements i (before ++ item :: after) st
       = (Ok tt, st3)
    /\ f_out st3
       = f_out st
         ++ map (fun r => r ++ terminator)
              (omap (fun item => rendered (conversion_result U F item))
                    (before ++ item :: after)).
Proof.
  destruct (for_each_spec total_statements before i st)
    as (st1 & E1 & _).
  destruct (process_statement_spec total_statements (i + length before)
              item st1) as (st2 & E2 & Hc & _).
  destruct (for_each_spec total_statements after (S (i + length before)) st2)
    as (st3 & E3 & _).
  exists st1, st2, st3.
  assert (E : for_each U F total_statements i (before ++ item :: after) st
              = (Ok tt, st3)).
  { rewrite for_each_app. unfold bind at 1. rewrite E1. simpl.
    unfold bind at 1. rewrite E2. exact E3. }
  repeat split; try assumption.
  - injection Hc as Hd Hp Hf.
    pose proof (tally_one (conversion_result U F item)). lia.
  - destruct (for_each_spec total_statements (before ++ item :: after) i st)
      as (st3' & E' & _ & Ho & _).
    rewrite E in E'. injection E' as <-. exact Ho.
Qed.

(** C8, amended: when the direct attempt of a statement fails, the
    preprocessor is given [original_sql], the text [expr.sql()] renders
    from the parsed statement, which is the text the direct attempt was
    given; the second attempt is given the preprocessed text. *)
Theorem fallback_preprocesses_rendered_text (total_statements i : nat)
    (e : expr F) (st : run_state) (err : exn) :
  attempt F (expr_sql F e) = Raise err ->
  calls (process_statement U F total_statements i (Some e) st).2
  = calls st
    ++ [CallTranspile (expr_sql F e);
        CallPreprocess (expr_sql F e);
        CallTranspile (preprocess_sql_statement U (expr_sql F e))].
Proof.
  intros H.
  destruct (process_statement_spec total_statements i (Some e) st)
    as (st' & E & _ & _ & Hk & _).
  rewrite E. simpl. rewrite Hk. simpl. rewrite H. reflexivity.
Qed.

End PipelineFacts.

Lemma fallback_preprocesses_rendered_text_witness :
  attempt demo_frontend (expr_sql demo_frontend (cp "a ROW_FORMAT=x"))
  = Raise (OtherError "ParseError")
  /\ calls (process_statement ascii_tables demo_frontend 1 0
              (Some (cp "a ROW_FORMAT=x")) (initial_state ∅)).2
     = [CallTranspile (cp "a ROW_FORMAT=x");
        CallPreprocess (cp "a ROW_FORMAT=x");
        CallTranspile (cp "a ")].
Proof.
  split; [reflexivity|].
  apply (fallback_preprocesses_rendered_text ascii_tables demo_frontend 1 0
           (cp "a ROW_FORMAT=x") (initial_state ∅)
           (OtherError "ParseError")).
  reflexivity.
Defined.

(** C8, as stated, fails.  The script is [SELECT 'utf8mb4' FROM]: its one
    statement is parsed from the rewritten script, its direct attempt
    fails, and the text the preprocessor is given is
    [SELECT 'UTF8' FROM], which occurs nowhere in the script. *)
Lemma preprocessor_text_not_in_script :
  calls (main ascii_tables strict_frontend charset_files).2
  = [CallTranspile (cp "SELECT 'UTF8' FROM");
     CallPreprocess (cp "SELECT 'UTF8' FROM");
     CallTranspile (cp "SELECT 'UTF8' FROM")]
  /\ occurs_in (cp "SELECT 'UTF8' FROM") charset_script = false.
Proof.
  split; vm_compute; reflexivity.
Qed.

(** ** The run as a whole *)

Section RunFacts.
Variable U : unicode_tables.
Variable F : frontend.

(** The script never lets an exception out: its exit status is 0. *)
Lemma exit_status_zero (files : gmap string file) :
  exit_status U F files = 0%nat.
Proof.
  unfold exit_status, main, convert_mysql_to_dameng.
  unfold bind at 1. simpl. unfold try_except.
  match goal with |- context [match ?m ?s with _ => _ end] =>
    destruct (m s) as [[[]|err] st] end.
  - reflexivity.
  - destruct err; reflexivity.
Qed.

(** With no statement the division raises, after the four counters were
    logged and before the rate is. *)
Lemma report_zero (output_file : string) (st : run_state) :
  (report 0 output_file st).1 = Raise ZeroDivisionError
  /\ log (report 0 output_file st).2
     = log st
       ++ [(INFO, MsgStatsHeader); (INFO, MsgTotal 0);
           (INFO, MsgDirect (successful_direct st));
           (INFO, MsgPreprocessed (successful_preprocessed st));
           (INFO, MsgFailed (failed_conversions st))].
Proof.
  unfold report, bind, get_state, logging, lift, true_div. simpl.
  split; [reflexivity|]. rewrite <- !app_assoc. reflexivity.
Qed.

(** C7, amended: when the input file is missing or cannot be opened, the
    run logs one ERROR record after its first INFO record and ends there:
    no call was made, no counter moved, nothing was written, the files are
    as they were; the function returns normally and the exit status of the
    script is 0. *)
Theorem script_fatal_reported_once (files : gmap string file)
    (input_file output_file : string) :
  files !! input_file = None \/ files !! input_file = Some Denied ->
  exists reported,
    convert_mysql_to_dameng U F input_file output_file (initial_state files)
    = (Ok tt,
       {| successful_direct := 0; successful_preprocessed := 0;
          failed_conversions := 0; f_out := [];
          log := [(INFO, MsgStart input_file); (ERROR, reported)];
          fs := files; calls := [] |})
    /\ exit_status U F files = 0%nat.
Proof.
  intros H.
  unfold convert_mysql_to_dameng, with_files, open_read, try_except, bind,
    get_state, logging, raise. simpl.
  destruct H as [-> | ->]; simpl; eexists;
    (split; [reflexivity|apply exit_status_zero]).
Qed.
End RunFacts.

Lemma script_fatal_reported_once_witness :
  (∅ : gmap string file) !! "mysql_ainemo.sql"%string = None
  /\ exists reported,
       convert_mysql_to_dameng ascii_tables demo_frontend
         "mysql_ainemo.sql" "mysql_postgres.sql" (initial_state ∅)
       = (Ok tt,
          {| successful_direct := 0; successful_preprocessed := 0;
             failed_conversions := 0; f_out := [];
             log := [(INFO, MsgStart "mysql_ainemo.sql");
                     (ERROR, reported)];
             fs := ∅; calls := [] |})
       /\ exit_status ascii_tables demo_frontend ∅ = 0%nat.
Proof.
  split; [reflexivity|].
  apply (script_fatal_reported_once ascii_tables demo_frontend ∅
           "mysql_ainemo.sql" "mysql_postgres.sql").
  left. reflexivity.
Defined.

(** C7, as stated, fails in its last part: with the input file missing the
    exit status of the script is 0, the status of a successful run. *)
Lemma missing_input_exit_status_successful :
  (∅ : gmap string file) !! "mysql_ainemo.sql"%string = None
  /\ exit_status ascii_tables demo_frontend ∅ = 0%nat.
Proof.
  split; reflexivity.
Qed.

(** ** The type registry *)

(** A key reads as its last item in the display, or as in the base when
    the display has none. *)
Lemma dict_display_lookup (items : list (string * string)) :
  forall (base : gmap string string) (k : string),
    dict_display base items !! k
    = match find_item k items with
      | Some v => Some v
      | None => base !! k
      end.
Proof.
  induction items as [|[k' v] rest IH]; intros base k; [reflexivity|].
  unfold dict_display in *. simpl. rewrite IH.
  destruct (find_item k rest); [reflexivity|].
  destruct (String.eqb_spec k' k) as [->|Hne].
  - apply lookup_insert_eq.
  - apply lookup_insert_ne. exact Hne.
Qed.

(** C9: whatever Oracle's registry holds, the registry maps MEDIUMINT to
    INT and each of TINYTEXT, MEDIUMTEXT and LONGTEXT to TEXT, and a type
    renders as its entry. *)
Theorem type_mapping_mysql_compat (Oracle_TYPE_MAPPING : gmap string string) :
  TYPE_MAPPING Oracle_TYPE_MAPPING !! "MEDIUMINT"%string = Some "INT"%string
  /\ TYPE_MAPPING Oracle_TYPE_MAPPING !! "TINYTEXT"%string
     = Some "TEXT"%string
  /\ TYPE_MAPPING Oracle_TYPE_MAPPING !! "MEDIUMTEXT"%string
     = Some "TEXT"%string
  /\ TYPE_MAPPING Oracle_TYPE_MAPPING !! "LONGTEXT"%string
     = Some "TEXT"%string
  /\ renderType (TYPE_MAPPING Oracle_TYPE_MAPPING) "MEDIUMINT" = "INT"%string
  /\ renderType (TYPE_MAPPING Oracle_TYPE_MAPPING) "TINYTEXT" = "TEXT"%string
  /\ renderType (TYPE_MAPPING Oracle_TYPE_MAPPING) "MEDIUMTEXT"
     = "TEXT"%string
  /\ renderType (TYPE_MAPPING Oracle_TYPE_MAPPING) "LONGTEXT" = "TEXT"%string.
Proof.
  unfold renderType, TYPE_MAPPING.
  rewrite !dict_display_lookup.
  repeat split; reflexivity.
Qed.

(** ** The theorems at concrete inputs *)


Lemma fallback_monotonicity_witness :
  attempt demo_frontend (expr_sql demo_frontend (cp "SELECT 1"))
  = Ok (cp "SELECT 1")
  /\ calls (process_statement ascii_tables demo_frontend 1 0
              (Some (cp "SELECT 1")) (initial_state ∅)).2
     = [CallTranspile (cp "SELECT 1")].
Proof.
  split; [reflexivity|].
  apply (proj1 (fallback_monotonicity ascii_tables demo_frontend 1 0
                  (cp "SELECT 1") (initial_state ∅)) (cp "SELECT 1")).
  reflexivity.
Defined.

Example demo_run_counters :
  let st := (main ascii_tables demo_frontend demo_files).2 in
  (successful_direct st, successful_preprocessed st, failed_conversions st)
  = (1, 1, 1)%nat
  /\ f_out st
     = [cp "SELECT 1" ++ terminator;
        cp "CREATE TABLE t (a INT) CHARSET=UTF8 " ++ terminator].
Proof. vm_compute. split; reflexivity. Qed.

(** * Further properties of the code *)

(** ** The preprocessor only deletes *)

Section PreprocessorFacts.
Variable U : unicode_tables.

Lemma match_star_suffix (a : atom) (k : text -> option text) :
  (forall s rest, k s = Some rest -> exists m, s = m ++ rest) ->
  forall s rest,
    match_star U a k s = Some rest -> exists m, s = m ++ rest.
Proof.
  intros Hk s. induction s as [|c s IH]; intros rest; simpl.
  - apply Hk.
  - destruct (atom_match U a c).
    + destruct (match_star U a k s) as [r|] eqn:E.
      * intros [= <-]. destruct (IH r eq_refl) as (m & ->).
        exists (c :: m). reflexivity.
      * apply Hk.
    + apply Hk.
Qed.

(** What follows a match is an end of the text. *)
Lemma match_here_suffix (r : regex) :
  forall s rest, match_here U r s = Some rest -> exists m, s = m ++ rest.
Proof.
  induction r as [|[a q] r IH]; intros s rest; simpl.
  - intros [= <-]. exists []. reflexivity.
  - destruct q.
    + destruct s as [|c s]; [discriminate|].
      destruct (atom_match U a c); [|discriminate].
      intros H. apply IH in H as (m & ->). exists (c :: m). reflexivity.
    + destruct s as [|c s]; [discriminate|].
      destruct (atom_match U a c); [|discriminate].
      intros H. apply (match_star_suffix a _ IH) in H as (m & ->).
      exists (c :: m). reflexivity.
    + apply (match_star_suffix a _ IH).
Qed.

Lemma re_sub_remove_sublist (r : regex) :
  forall n s, (length s <= n)%nat -> sublist (re_sub U r [] s) s.
Proof.
  induction n as [|n IH]; intros s Hn.
  - destruct s; [constructor|simpl in Hn; lia].
  - destruct s as [|c s]; [constructor|].
    rewrite re_sub_cons. simpl in Hn.
    destruct (match_here U r (c :: s)) as [rest|] eqn:E.
    + destruct (length rest <? length (c :: s))%nat eqn:El.
      * apply Nat.ltb_lt in El. simpl in El. simpl app.
        apply match_here_suffix in E as (m & E). rewrite E.
        apply sublist_inserts_l. apply IH. lia.
      * apply sublist_skip. apply IH. lia.
    + apply sublist_skip. apply IH. lia.
Qed.

Lemma apply_rules_sublist (rs : list regex) :
  forall s, sublist (apply_rules U rs s) s.
Proof.
  induction rs as [|r rs IH]; intros s; unfold apply_rules; simpl.
  - reflexivity.
  - transitivity (re_sub U r [] s).
    + apply IH.
    + apply (re_sub_remove_sublist r (length s)). lia.
Qed.

(** X1: the preprocessor only deletes characters: what it returns is the
    text it was given with some characters left out, the others in their
    order. *)
Theorem preprocess_only_deletes (sql : text) :
  sublist (preprocess_sql_statement U sql) sql.
Proof.
  rewrite preprocess_is_apply_rules. apply apply_rules_sublist.
Qed.

(** X2: a call of the preprocessor returns the processed text and never
    raises; it logs its INFO record exactly when some rule matches in the
    text, and touches neither the counters, the output nor the files. *)
Theorem preprocess_logs_iff_rule_matches (sql : text) (st : run_state) :
  call_preprocess_sql_statement U sql st
  = (Ok (preprocess_sql_statement U sql),
     {| successful_direct := successful_direct st;
        successful_preprocessed := successful_preprocessed st;
        failed_conversions := failed_conversions st;
        f_out := f_out st;
        log := log st
               ++ (if any_rule_matches U sql
                   then [(INFO,
                          MsgPreprocessApplied (take 100 sql)
                            (take 100 (preprocess_sql_statement U sql)))]
                   else []);
        fs := fs st;
        calls := calls st ++ [CallPreprocess sql] |}).
Proof.
  unfold call_preprocess_sql_statement, bind, record_call, ret, logging.
  simpl.
  destruct (any_rule_matches U sql) eqn:E.
  - rewrite bool_decide_eq_false_2; [reflexivity|].
    intros H. apply preprocess_fixed_point in H. congruence.
  - rewrite bool_decide_eq_true_2; [|apply preprocess_fixed_point, E].
    rewrite app_nil_r. reflexivity.
Qed.

(** A pattern that holds the literal [l], taken once, matches only where
    a character that [l] accepts follows. *)
Lemma match_star_needs (a : atom) (k : text -> option text) (l : char) :
  (forall s rest, k s = Some rest -> existsb (lit_match l) s = true) ->
  forall s rest,
    match_star U a k s = Some rest -> existsb (lit_match l) s = true.
Proof.
  intros Hk s. induction s as [|c s IH]; intros rest; simpl.
  - intros H. apply Hk in H. exact H.
  - destruct (atom_match U a c).
    + destruct (match_star U a k s) as [r|] eqn:E.
      * intros _. rewrite (IH r eq_refl). apply orb_true_r.
      * intros H. apply Hk in H. exact H.
    + intros H. apply Hk in H. exact H.
Qed.

Lemma match_here_needs (l : char) (r : regex) :
  In (Lit l, One) r ->
  forall s rest,
    match_here U r s = Some rest -> existsb (lit_match l) s = true.
Proof.
  induction r as [|[a q] r IH]; intros Hin; [destruct Hin|].
  destruct Hin as [Heq|Hin].
  - injection Heq as -> ->. intros s rest. simpl.
    destruct s as [|c s]; [discriminate|]. simpl.
    destruct (lit_match l c); [reflexivity|discriminate].
  - specialize (IH Hin). intros s rest. simpl. destruct q.
    + destruct s as [|c s]; [discriminate|].
      destruct (atom_match U a c); [|discriminate].
      intros H. apply IH in H. simpl. rewrite H. apply orb_true_r.
    + destruct s as [|c s]; [discriminate|].
      destruct (atom_match U a c); [|discriminate].
      intros H. apply (match_star_needs a _ l IH) in H.
      simpl. rewrite H. apply orb_true_r.
    + apply (match_star_needs a _ l IH).
Qed.

Lemma re_search_needs (l : char) (r : regex) :
  In (Lit l, One) r ->
  forall s, existsb (lit_match l) s = false -> re_search U r s = false.
Proof.
  intros Hin. induction s as [|c s IH]; intros H; simpl.
  - destruct (match_here U r []) as [rest|] eqn:E; [|reflexivity].
    apply (match_here_needs l r Hin) in E. discriminate.
  - destruct (match_here U r (c :: s)) as [rest|] eqn:E.
    + apply (match_here_needs l r Hin) in E. congruence.
    + apply IH. simpl in H. apply orb_false_iff in H as [_ H]. exact H.
Qed.

(** X3: the two option rules need an equals sign: a text without one, such
    as a column that is merely declared AUTO_INCREMENT, is left as it is
    by the ROW_FORMAT and the AUTO_INCREMENT rule. *)
Theorem option_rules_need_equals_sign (sql : text) :
  existsb (N.eqb 61) sql = false ->
  re_sub U rule_row_format [] sql = sql
  /\ re_sub U rule_auto_increment [] sql = sql.
Proof.
  intros H.
  assert (H' : existsb (lit_match 61) sql = false).
  { clear -H. induction sql as [|c s IH]; [reflexivity|].
    cbn [existsb] in H. apply orb_false_iff in H as [H1 H2].
    cbn [existsb]. rewrite (IH H2). unfold lit_match.
    change (ignorecase_set 61) with [61]. cbn [existsb].
    rewrite N.eqb_sym, H1. reflexivity. }
  split; apply re_sub_no_match; apply (re_search_needs 61); try exact H';
    vm_compute; auto 30.
Qed.
End PreprocessorFacts.

Lemma option_rules_need_equals_sign_witness :
  existsb (N.eqb 61) (cp "id INT AUTO_INCREMENT PRIMARY KEY") = false
  /\ re_sub ascii_tables rule_row_format []
       (cp "id INT AUTO_INCREMENT PRIMARY KEY")
     = cp "id INT AUTO_INCREMENT PRIMARY KEY"
  /\ re_sub ascii_tables rule_auto_increment []
       (cp "id INT AUTO_INCREMENT PRIMARY KEY")
     = cp "id INT AUTO_INCREMENT PRIMARY KEY".
Proof.
  split; [reflexivity|].
  apply (option_rules_need_equals_sign ascii_tables
           (cp "id INT AUTO_INCREMENT PRIMARY KEY")).
  reflexivity.
Defined.

(** ** The charset rewrite and its length test *)

Section CharsetLength.
Variable U : unicode_tables.

Lemma re_search_cons_none (r : regex) (c : char) (s : text) :
  match_here U r (c :: s) = None ->
  re_search U r (c :: s) = re_search U r s.
Proof. intros H. simpl. rewrite H. reflexivity. Qed.

Lemma replace_charset_length :
  forall n s, (length s <= n)%nat ->
    (length (replace_charset U s) <= length s)%nat
    /\ (re_search U charset_pattern s = true ->
        (length (replace_charset U s) < length s)%nat).
Proof.
  unfold replace_charset.
  induction n as [|n IH]; intros s Hn.
  - destruct s; [|simpl in Hn; lia]. split; [simpl; lia|].
    simpl. intros H. discriminate.
  - destruct s as [|c s].
    { split; [simpl; lia|]. simpl. intros H. discriminate. }
    simpl in Hn.
    destruct (match_here U charset_pattern (c :: s)) as [rest|] eqn:E.
    + pose proof E as E'. apply match_charset in E' as (occ & Eq & Ho).
      assert (H7 : length occ = 7%nat).
      { apply is_utf8mb4_inv in Ho
          as (? & ? & ? & ? & ? & ? & ? & -> & _). reflexivity. }
      rewrite Eq. rewrite (re_sub_charset_match U occ rest Ho).
      assert (Hr : (length rest <= n)%nat).
      { apply (f_equal length) in Eq. rewrite length_app in Eq.
        simpl in Eq. lia. }
      destruct (IH rest Hr) as [IH1 _].
      rewrite !length_app. change (length (cp "UTF8")) with 4%nat.
      split; [lia|]. intros _. lia.
    + rewrite re_sub_cons, E. destruct (IH s ltac:(lia)) as [IH1 IH2].
      split; [simpl; lia|].
      rewrite (re_search_cons_none _ _ _ E). intros H.
      specialize (IH2 H). simpl. lia.
Qed.

(** X4: the rewrite never makes the script longer, returns a script
    without an occurrence as it is, and changes its length exactly when
    the script holds an occurrence: the test of the lengths that guards
    the second log record is a test for an occurrence. *)
Theorem charset_length_test (sql_content : text) :
  (length (replace_charset U sql_content) <= length sql_content)%nat
  /\ (re_search U charset_pattern sql_content = false ->
      replace_charset U sql_content = sql_content)
  /\ bool_decide (length (replace_charset U sql_content)
                  = length sql_content)
     = negb (re_search U charset_pattern sql_content).
Proof.
  destruct (replace_charset_length (length sql_content) sql_content
              (Nat.le_refl _)) as [H1 H2].
  split; [exact H1|]. split.
  - apply re_sub_no_match.
  - destruct (re_search U charset_pattern sql_content) eqn:E; simpl.
    + apply bool_decide_eq_false_2. specialize (H2 eq_refl). lia.
    + apply bool_decide_eq_true_2.
      unfold replace_charset. rewrite (re_sub_no_match U _ _ _ E).
      reflexivity.
Qed.
End CharsetLength.

(** ** The counters, the output and the calls of the loop *)

Section LoopFacts.
Variable U : unicode_tables.
Variable F : frontend.

Lemma count_results_cons (kind : ConversionResult -> bool)
    (item : option (expr F)) (rest : list (option (expr F))) :
  count_results U F kind (item :: rest)
  = ((if kind (conversion_result U F item) then 1 else 0)
     + count_results U F kind rest)%nat.
Proof.
  unfold count_results. simpl.
  destruct (kind (conversion_result U F item)); reflexivity.
Qed.

Lemma counters_by_kind_aux (total_statements : nat) :
  forall (expressions : list (option (expr F))) (i : nat) (st : run_state),
    successful_direct (for_each U F total_statements i expressions st).2
    = (successful_direct st + count_results U F is_direct expressions)%nat
    /\ successful_preprocessed
         (for_each U F total_statements i expressions st).2
       = (successful_preprocessed st
          + count_results U F is_preprocessed expressions)%nat
    /\ failed_conversions (for_each U F total_statements i expressions st).2
       = (failed_conversions st
          + count_results U F is_failed expressions)%nat.
Proof.
  induction expressions as [|item rest IH]; intros i st.
  - simpl. unfold count_results. simpl. lia.
  - destruct (process_statement_spec U F total_statements i item st)
      as (st1 & E1 & Hc & _).
    simpl. unfold bind at 1 2 3. rewrite E1.
    destruct (IH (S i) st1) as (Hd & Hp & Hf).
    rewrite Hd, Hp, Hf, !count_results_cons.
    injection Hc as -> -> ->.
    destruct (conversion_result U F item); cbn [tally is_direct
      is_preprocessed is_failed fst snd]; repeat split; lia.
Qed.

(** X5: when the loop ends each counter has grown by the number of
    statements with the result it counts: direct successes, successes
    after preprocessing, failures. *)
Theorem counters_by_kind (total_statements i : nat)
    (expressions : list (option (expr F))) (st : run_state) :
  successful_direct (for_each U F total_statements i expressions st).2
  = (successful_direct st + count_results U F is_direct expressions)%nat
  /\ successful_preprocessed
       (for_each U F total_statements i expressions st).2
     = (successful_preprocessed st
        + count_results U F is_preprocessed expressions)%nat
  /\ failed_conversions (for_each U F total_statements i expressions st).2
     = (failed_conversions st
        + count_results U F is_failed expressions)%nat.
Proof.
  apply counters_by_kind_aux.
Qed.

Lemma rendered_count (expressions : list (option (expr F))) :
  length (omap (fun item => rendered (conversion_result U F item))
            expressions)
  = (count_results U F is_direct expressions
     + count_results U F is_preprocessed expressions)%nat.
Proof.
  induction expressions as [|item rest IH]; [reflexivity|].
  rewrite !count_results_cons. cbn [omap list_omap].
  destruct (conversion_result U F item);
    cbn [rendered is_direct is_preprocessed length]; rewrite IH; lia.
Qed.

(** X6: the loop writes one text per success and nothing else: the number
    of texts written is the growth of the two success counters. *)
Theorem writes_equal_successes (total_statements i : nat)
    (expressions : list (option (expr F))) (st : run_state) :
  (length (f_out (for_each U F total_statements i expressions st).2)
   + successful_direct st + successful_preprocessed st
   = length (f_out st)
     + successful_direct (for_each U F total_statements i expressions st).2
     + successful_preprocessed
         (for_each U F total_statements i expressions st).2)%nat.
Proof.
  destruct (counters_by_kind_aux total_statements expressions i st)
    as (Hd & Hp & _).
  destruct (for_each_spec U F total_statements expressions i st)
    as (st' & E & _ & Ho & _).
  rewrite E in *. simpl in *.
  rewrite Hd, Hp, Ho, length_app, length_map, rendered_count. lia.
Qed.
End LoopFacts.

Ltac run_step :=
  unfold process_statement, call_preprocess_sql_statement, call_transpile,
    try_except, bind, lift, ret, raise, record_call, write, logging,
    incr_successful_direct, incr_successful_preprocessed,
    incr_failed_conversions, attempt in *;
  simpl in *.

Section CallFacts.
Variable U : unicode_tables.
Variable F : frontend.

Lemma preprocess_calls_count (expressions : list (option (expr F))) :
  (length (List.filter is_preprocess_call
             (flat_map (calls_of U F) expressions))
   + count_results U F is_direct expressions
   = length (List.filter is_expression expressions))%nat
  /\ length (List.filter (fun c => negb (is_preprocess_call c))
               (flat_map (calls_of U F) expressions))
     = (length (List.filter is_expression expressions)
        + length (List.filter is_preprocess_call
                    (flat_map (calls_of U F) expressions)))%nat.
Proof.
  induction expressions as [|item rest [IH1 IH2]].
  - split; reflexivity.
  - rewrite count_results_cons. cbn [flat_map].
    rewrite !List.filter_app, !length_app.
    destruct item as [e|]; cbn [List.filter is_expression length].
    + cbn [calls_of conversion_result].
      destruct (attempt F (expr_sql F e)) as [r|err];
        cbn [List.filter is_preprocess_call negb length is_direct].
      * split; lia.
      * destruct (attempt F (preprocess_sql_statement U (expr_sql F e)));
          cbn [is_direct]; split; lia.
    + cbn [calls_of conversion_result is_direct List.filter length].
      split; lia.
Qed.

(** X7: the preprocessor is called once for each statement that was parsed
    and did not translate directly, and for no other; the translator is
    called once for each parsed statement and once more after each call of
    the preprocessor.  A statement that was not parsed reaches neither. *)
Theorem calls_per_statement (total_statements i : nat)
    (expressions : list (option (expr F))) (st : run_state) :
  (length (List.filter is_preprocess_call
             (calls (for_each U F total_statements i expressions st).2))
   + count_results U F is_direct expressions
   = length (List.filter is_preprocess_call (calls st))
     + length (List.filter is_expression expressions))%nat
  /\ (length (List.filter (fun c => negb (is_preprocess_call c))
                (calls (for_each U F total_statements i expressions st).2))
      + length (List.filter is_preprocess_call (calls st))
      = length (List.filter (fun c => negb (is_preprocess_call c)) (calls st))
        + length (List.filter is_expression expressions)
        + length (List.filter is_preprocess_call
                    (calls (for_each U F total_statements i
                              expressions st).2)))%nat.
Proof.
  destruct (for_each_spec U F total_statements expressions i st)
    as (st' & E & _ & _ & Hk & _).
  rewrite E. simpl. rewrite Hk, !List.filter_app, !length_app.
  destruct (preprocess_calls_count expressions) as [H1 H2].
  split; lia.
Qed.

(** X9: a statement that fails leaves, as its last log record, a WARNING
    with its number (from 1) when it was not parsed, and otherwise an
    ERROR with its number and the whole text of the statement. *)
Theorem failed_statement_leaves_record (total_statements i : nat)
    (item : option (expr F)) (st : run_state) :
  conversion_result U F item = Failed ->
  exists entry,
    last (log (process_statement U F total_statements i item st).2)
    = Some entry
    /\ match item with
       | None => entry = (WARNING, MsgUnparsable (i + 1) total_statements)
       | Some e =>
           exists err2,
             entry = (ERROR,
                      MsgStillFailed (i + 1) total_statements err2
                        (expr_sql F e))
       end.
Proof.
  unfold conversion_result. destruct item as [e|]; run_step.
  - destruct (transpile F (expr_sql F e)) as [[|r rest]|err]; simpl;
      try discriminate;
      destruct (bool_decide (preprocess_sql_statement U (expr_sql F e)
                             = expr_sql F e)); simpl;
      destruct (transpile F (preprocess_sql_statement U (expr_sql F e)))
        as [[|r2 rest2]|err2]; simpl; try discriminate; intros _;
      eexists; (split; [apply last_snoc|]); eexists; reflexivity.
  - intros _. eexists. split; [apply last_snoc|reflexivity].
Qed.
End CallFacts.

Lemma failed_statement_leaves_record_witness :
  conversion_result ascii_tables demo_frontend (Some (cp "?")) = Failed
  /\ exists entry,
       last (log (process_statement ascii_tables demo_frontend 3 2
                    (Some (cp "?")) (initial_state ∅)).2)
       = Some entry
       /\ exists err2,
            entry = (ERROR, MsgStillFailed (2 + 1) 3 err2 (cp "?")).
Proof.
  split; [reflexivity|].
  apply (failed_statement_leaves_record ascii_tables demo_frontend 3 2
           (Some (cp "?")) (initial_state ∅)).
  reflexivity.
Defined.

(** ** The run from the files to the report *)

Section WholeRun.
Variable U : unicode_tables.
Variable F : frontend.

Lemma length_test_is_search (sql_content : text) :
  bool_decide (length (replace_charset U sql_content) = length sql_content)
  = negb (re_search U charset_pattern sql_content).
Proof.
  destruct (replace_charset_length U (length sql_content) sql_content
              (Nat.le_refl _)) as [H1 H2].
  destruct (re_search U charset_pattern sql_content) eqn:E; simpl.
  - apply bool_decide_eq_false_2. specialize (H2 eq_refl). lia.
  - apply bool_decide_eq_true_2.
    unfold replace_charset. rewrite (re_sub_no_match U _ _ _ E).
    reflexivity.
Qed.

(** The two files open: the output file is created or emptied. *)
Lemma open_both {A} (input_file output_file : string) (m : M A)
    (st : run_state) (held : file) :
  fs st !! input_file = Some held ->
  held <> Denied -> held <> NoDirectory ->
  opens_for_writing (fs st !! output_file) = true ->
  (open_read input_file ;; open_write output_file ;; m) st
  = m {| successful_direct := successful_direct st;
         successful_preprocessed := successful_preprocessed st;
         failed_conversions := failed_conversions st;
         f_out := f_out st;
         log := log st;
         fs := <[output_file := Readable []]> (fs st);
         calls := calls st |}.
Proof.
  intros Hin Hd Hn Hw.
  unfold open_read, open_write.
  unfold bind at 1 2. unfold get_state at 1. rewrite Hin.
  assert (Hr : match held with
               | Denied => raise PermissionError
               | NoDirectory => raise FileNotFoundError
               | _ => ret ()
               end st = (Ok tt, st)).
  { destruct held; try reflexivity; congruence. }
  rewrite Hr. clear Hr.
  unfold bind at 1 2. unfold get_state at 1.
  destruct (fs st !! output_file) as [[]|]; try discriminate; reflexivity.
Qed.

(** The output file cannot be opened: the block is not entered. *)
Lemma open_write_fails {A} (input_file output_file : string) (m : M A)
    (st : run_state) (held : file) :
  fs st !! input_file = Some held ->
  held <> Denied -> held <> NoDirectory ->
  opens_for_writing (fs st !! output_file) = false ->
  (open_read input_file ;; open_write output_file ;; m) st
  = (Raise match fs st !! output_file with
           | Some NoDirectory => FileNotFoundError
           | _ => PermissionError
           end, st).
Proof.
  intros Hin Hd Hn Hw.
  unfold open_read, open_write.
  unfold bind at 1 2. unfold get_state at 1. rewrite Hin.
  assert (Hr : match held with
               | Denied => raise PermissionError
               | NoDirectory => raise FileNotFoundError
               | _ => ret ()
               end st = (Ok tt, st)).
  { destruct held; try reflexivity; congruence. }
  rewrite Hr. clear Hr.
  unfold bind at 1 2. unfold get_state at 1.
  destruct (fs st !! output_file) as [[]|]; try discriminate; reflexivity.
Qed.

Lemma finally_eq {A} (m1 m2 : M A) (cleanup : M unit)
    (st1 st2 : run_state) :
  m1 st1 = m2 st2 -> finally m1 cleanup st1 = finally m2 cleanup st2.
Proof. intros H. unfold finally. rewrite H. reflexivity. Qed.

(** The script is read and rewritten: what is left of the block is to
    parse it and to convert its statements. *)
Lemma read_script (input_file : string) (sql_content : text)
    (st : run_state) :
  (fs st !! input_file = Some (Readable sql_content)
   \/ fs st !! input_file = Some (ReadOnly sql_content)) ->
  (let! sql_content := read input_file in
   logging INFO MsgCharsetStart ;;
   let original_size := length sql_content in
   let sql_content := replace_charset U sql_content in
   (if bool_decide (length sql_content = original_size) then ret tt
    else logging INFO MsgCharsetDone) ;;
   let! expressions := lift (parse F sql_content) in
   let total_statements := length expressions in
   logging INFO (MsgDetected total_statements) ;;
   for_each U F total_statements 0 expressions ;;
   ret total_statements) st
  = (let! expressions := lift (parse F (replace_charset U sql_content)) in
     let total_statements := length expressions in
     logging INFO (MsgDetected total_statements) ;;
     for_each U F total_statements 0 expressions ;;
     ret total_statements)
      {| successful_direct := successful_direct st;
         successful_preprocessed := successful_preprocessed st;
         failed_conversions := failed_conversions st;
         f_out := f_out st;
         log := log st ++ [(INFO, MsgCharsetStart)]
                ++ (if re_search U charset_pattern sql_content
                    then [(INFO, MsgCharsetDone)] else []);
         fs := fs st;
         calls := calls st |}.
Proof.
  intros Hin.
  unfold read. unfold bind at 1 2. unfold get_state at 1.
  assert (Hr : match fs st !! input_file with
               | Some (Readable content) => ret content
               | Some (ReadOnly content) => ret content
               | Some Undecodable => raise UnicodeDecodeError
               | Some Denied => raise PermissionError
               | Some NoDirectory => raise FileNotFoundError
               | None => raise FileNotFoundError
               end st = (Ok sql_content, st)).
  { destruct Hin as [-> | ->]; reflexivity. }
  rewrite Hr. clear Hr.
  unfold bind at 1. unfold logging at 1.
  rewrite length_test_is_search.
  destruct (re_search U charset_pattern sql_content); cbn [negb].
  - unfold bind at 1. unfold logging at 1.
    cbn [successful_direct successful_preprocessed failed_conversions f_out
           log fs calls].
    rewrite <- app_assoc. reflexivity.
  - unfold bind at 1. unfold ret at 1. cbn [app]. reflexivity.
Qed.



(** X11: when the parser raises, the input being readable and the output
    another file that can be opened, the run ends normally after one
    ERROR record; no statement was translated and nothing was written,
    but the output file was created, or emptied.  A [FileNotFoundError]
    raised by the parser is reported as the input file being missing. *)
Theorem parse_error_reported (files : gmap string file)
    (input_file output_file : string) (sql_content : text) (err : exn) :
  files !! input_file = Some (Readable sql_content) ->
  input_file <> output_file ->
  opens_for_writing (files !! output_file) = true ->
  parse F (replace_charset U sql_content) = Raise err ->
  convert_mysql_to_dameng U F input_file output_file (initial_state files)
  = (Ok tt,
     {| successful_direct := 0; successful_preprocessed := 0;
        failed_conversions := 0; f_out := [];
        log := [(INFO, MsgStart input_file); (INFO, MsgCharsetStart)]
               ++ (if re_search U charset_pattern sql_content
                   then [(INFO, MsgCharsetDone)] else [])
               ++ [(ERROR,
                    match err with
                    | FileNotFoundError => MsgInputNotFound input_file
                    | _ => MsgUnknownError err
                    end)];
        fs := <[output_file := Readable []]> files;
        calls := [] |}).
Proof.
  intros Hin Hne Hw Hparse.
  unfold convert_mysql_to_dameng.
  unfold bind at 1. unfold logging at 1.
  cbn [initial_state successful_direct successful_preprocessed
         failed_conversions f_out log fs calls app].
  unfold try_except. unfold bind at 1. unfold with_files.
  rewrite (open_both input_file output_file _ _ (Readable sql_content))
    by (cbn [fs]; first [assumption | discriminate]).
  cbn [successful_direct successful_preprocessed failed_conversions f_out
         log fs calls].
  erewrite finally_eq;
    [|apply (read_script input_file sql_content); left; cbn [fs];
      rewrite lookup_insert_ne by congruence; exact Hin].
  cbn [successful_direct successful_preprocessed failed_conversions f_out
         log fs calls].
  unfold finally. unfold bind at 1. unfold lift at 1. rewrite Hparse.
  unfold close_output, bind, get_state, set_fs.
  cbn [snd successful_direct successful_preprocessed failed_conversions
         f_out log fs calls concat].
  rewrite insert_insert_eq.
  destruct (re_search U charset_pattern sql_content);
    destruct err; reflexivity.
Qed.

(** X12: when the input file is not valid UTF-8, and the output is
    another file that can be opened, the read fails after the output file
    was opened: the run ends with one ERROR record and leaves the output
    file created, or emptied. *)
Theorem undecodable_input_empties_output (files : gmap string file)
    (input_file output_file : string) :
  files !! input_file = Some Undecodable ->
  input_file <> output_file ->
  opens_for_writing (files !! output_file) = true ->
  convert_mysql_to_dameng U F input_file output_file (initial_state files)
  = (Ok tt,
     {| successful_direct := 0; successful_preprocessed := 0;
        failed_conversions := 0; f_out := [];
        log := [(INFO, MsgStart input_file);
                (ERROR, MsgUnknownError UnicodeDecodeError)];
        fs := <[output_file := Readable []]> files;
        calls := [] |}).
Proof.
  intros Hin Hne Hw.
  unfold convert_mysql_to_dameng.
  unfold bind at 1. unfold logging at 1.
  cbn [initial_state successful_direct successful_preprocessed
         failed_conversions f_out log fs calls app].
  unfold try_except. unfold bind at 1. unfold with_files.
  rewrite (open_both input_file output_file _ _ Undecodable)
    by (cbn [fs]; first [assumption | discriminate]).
  cbn [successful_direct successful_preprocessed failed_conversions f_out
         log fs calls].
  unfold finally, read. unfold bind at 1 2. unfold get_state at 1.
  cbn [fs]. rewrite lookup_insert_ne by congruence. rewrite Hin.
  unfold raise at 1.
  unfold close_output, bind, get_state, set_fs, logging.
  cbn [snd successful_direct successful_preprocessed failed_conversions
         f_out log fs calls concat app].
  rewrite insert_insert_eq. reflexivity.
Qed.

(** X13: when the output path is the input path, and what it holds can be
    opened for reading and for writing, the file is emptied before it is
    read: whatever it held (text or bytes that are not UTF-8), the run is
    the run on the empty script. *)
Theorem same_file_reads_empty (files : gmap string file) (path : string)
    (held : file) :
  files !! path = Some held ->
  held = Undecodable \/ (exists content, held = Readable content) ->
  convert_mysql_to_dameng U F path path (initial_state files)
  = convert_mysql_to_dameng U F path path
      (initial_state (<[path := Readable []]> files)).
Proof.
  intros Hin Hheld.
  assert (Heq :
    with_files U F path path
      {| successful_direct := 0; successful_preprocessed := 0;
         failed_conversions := 0; f_out := [];
         log := [(INFO, MsgStart path)]; fs := files; calls := [] |}
    = with_files U F path path
        {| successful_direct := 0; successful_preprocessed := 0;
           failed_conversions := 0; f_out := [];
           log := [(INFO, MsgStart path)];
           fs := <[path := Readable []]> files; calls := [] |}).
  { unfold with_files.
    rewrite (open_both path path _ _ held);
      [|cbn [fs]; try assumption;
        destruct Hheld as [->|[c ->]]; try discriminate;
        rewrite Hin; reflexivity ..].
    rewrite (open_both path path _ _ (Readable []));
      [|cbn [fs]; try discriminate;
        rewrite lookup_insert_eq; reflexivity ..].
    cbn [successful_direct successful_preprocessed failed_conversions f_out
           log fs calls].
    rewrite insert_insert_eq. reflexivity. }
  unfold convert_mysql_to_dameng, try_except.
  unfold bind at 1 3. unfold logging at 1 3.
  cbn [initial_state successful_direct successful_preprocessed
         failed_conversions f_out log fs calls app].
  unfold bind at 1 2. rewrite Heq. reflexivity.
Qed.

(** X18: when the input can be opened and the output cannot, the run ends
    after one ERROR record without creating or changing any file and
    without reading the script.  When the output fails to open because
    its directory does not exist, the record says that the input file was
    not found. *)
Theorem output_open_failure (files : gmap string file)
    (input_file output_file : string) (held : file) :
  files !! input_file = Some held ->
  held <> Denied -> held <> NoDirectory ->
  opens_for_writing (files !! output_file) = false ->
  convert_mysql_to_dameng U F input_file output_file (initial_state files)
  = (Ok tt,
     {| successful_direct := 0; successful_preprocessed := 0;
        failed_conversions := 0; f_out := [];
        log := [(INFO, MsgStart input_file);
                (ERROR,
                 match files !! output_file with
                 | Some NoDirectory => MsgInputNotFound input_file
                 | _ => MsgUnknownError PermissionError
                 end)];
        fs := files;
        calls := [] |}).
Proof.
  intros Hin Hd Hn Hw.
  unfold convert_mysql_to_dameng.
  unfold bind at 1. unfold logging at 1.
  cbn [initial_state successful_direct successful_preprocessed
         failed_conversions f_out log fs calls app].
  unfold try_except. unfold bind at 1. unfold with_files.
  rewrite (open_write_fails input_file output_file _ _ held)
    by (cbn [fs]; assumption).
  cbn [fs].
  destruct (files !! output_file) as [[]|]; try discriminate; reflexivity.
Qed.
End WholeRun.



Lemma parse_error_reported_witness :
  parse failing_frontend (replace_charset ascii_tables (cp "SELECT 1"))
  = Raise (OtherError "TokenError")
  /\ convert_mysql_to_dameng ascii_tables failing_frontend
       "in.sql" "out.sql" (initial_state small_files)
     = (Ok tt,
        {| successful_direct := 0; successful_preprocessed := 0;
           failed_conversions := 0; f_out := [];
           log := [(INFO, MsgStart "in.sql"); (INFO, MsgCharsetStart)]
                  ++ (if re_search ascii_tables charset_pattern
                            (cp "SELECT 1")
                      then [(INFO, MsgCharsetDone)] else [])
                  ++ [(ERROR, MsgUnknownError (OtherError "TokenError"))];
           fs := <["out.sql"%string := Readable []]> small_files;
           calls := [] |}).
Proof.
  split; [reflexivity|].
  apply (parse_error_reported ascii_tables failing_frontend small_files
           "in.sql" "out.sql" (cp "SELECT 1") (OtherError "TokenError")).
  - reflexivity.
  - discriminate.
  - reflexivity.
  - reflexivity.
Defined.

Lemma undecodable_input_empties_output_witness :
  binary_files !! "in.sql"%string = Some Undecodable
  /\ convert_mysql_to_dameng ascii_tables demo_frontend
       "in.sql" "out.sql" (initial_state binary_files)
     = (Ok tt,
        {| successful_direct := 0; successful_preprocessed := 0;
           failed_conversions := 0; f_out := [];
           log := [(INFO, MsgStart "in.sql");
                   (ERROR, MsgUnknownError UnicodeDecodeError)];
           fs := <["out.sql"%string := Readable []]> binary_files;
           calls := [] |}).
Proof.
  split; [reflexivity|].
  apply (undecodable_input_empties_output ascii_tables demo_frontend
           binary_files "in.sql" "out.sql").
  - reflexivity.
  - discriminate.
  - reflexivity.
Defined.

Lemma same_file_reads_empty_witness :
  small_files !! "in.sql"%string = Some (Readable (cp "SELECT 1"))
  /\ convert_mysql_to_dameng ascii_tables demo_frontend "in.sql" "in.sql"
       (initial_state small_files)
     = convert_mysql_to_dameng ascii_tables demo_frontend "in.sql" "in.sql"
         (initial_state (<["in.sql"%string := Readable []]> small_files)).
Proof.
  split; [reflexivity|].
  apply (same_file_reads_empty ascii_tables demo_frontend small_files
           "in.sql" (Readable (cp "SELECT 1"))).
  - reflexivity.
  - right. exists (cp "SELECT 1"). reflexivity.
Defined.

Lemma output_open_failure_witness :
  missing_directory_files !! "in.sql"%string
  = Some (Readable (cp "SELECT 1"))
  /\ opens_for_writing (missing_directory_files !! "out/out.sql"%string)
     = false
  /\ convert_mysql_to_dameng ascii_tables demo_frontend
       "in.sql" "out/out.sql" (initial_state missing_directory_files)
     = (Ok tt,
        {| successful_direct := 0; successful_preprocessed := 0;
           failed_conversions := 0; f_out := [];
           log := [(INFO, MsgStart "in.sql");
                   (ERROR,
                    match missing_directory_files !! "out/out.sql"%string
                    with
                    | Some NoDirectory => MsgInputNotFound "in.sql"
                    | _ => MsgUnknownError PermissionError
                    end)];
           fs := missing_directory_files;
           calls := [] |}).
Proof.
  split; [reflexivity|]. split; [reflexivity|].
  apply (output_open_failure ascii_tables demo_frontend
           missing_directory_files "in.sql" "out/out.sql"
           (Readable (cp "SELECT 1"))).
  - reflexivity.
  - discriminate.
  - discriminate.
  - reflexivity.
Defined.

(** ** The registry and the clause renderers of the dialect *)

(** X15: the registry is the items of the class laid over Oracle's: a
    type the class lists reads as the class says whatever Oracle says, and
    any other type reads as in Oracle's registry (absent when absent
    there). *)
Theorem type_mapping_overrides_base
    (Oracle_TYPE_MAPPING : gmap string string) :
  TYPE_MAPPING Oracle_TYPE_MAPPING
  = TYPE_MAPPING ∅ ∪ Oracle_TYPE_MAPPING.
Proof.
  apply map_eq. intros k. rewrite lookup_union.
  unfold TYPE_MAPPING. rewrite !dict_display_lookup, lookup_empty.
  match goal with |- context [find_item k ?l] =>
    destruct (find_item k l) end;
    destruct (Oracle_TYPE_MAPPING !! k); reflexivity.
Qed.

Lemma find_item_In (k v : string) (items : list (string * string)) :
  find_item k items = Some v -> In (k, v) items.
Proof.
  induction items as [|[k' v'] rest IH]; simpl; [discriminate|].
  destruct (find_item k rest) as [w|].
  - intros [= <-]. right. apply IH. reflexivity.
  - destruct (String.eqb_spec k' k) as [->|]; [|discriminate].
    intros [= <-]. left. reflexivity.
Qed.

(** X16: a target name that is itself a type of the class is mapped to
    itself, whatever Oracle's registry holds: mapping a type twice gives
    what mapping it once gives. *)
Theorem target_names_are_stable (Oracle_TYPE_MAPPING : gmap string string)
    (k v v' : string) :
  TYPE_MAPPING ∅ !! k = Some v ->
  TYPE_MAPPING ∅ !! v = Some v' ->
  TYPE_MAPPING Oracle_TYPE_MAPPING !! v = Some v.
Proof.
  unfold TYPE_MAPPING. rewrite !dict_display_lookup, !lookup_empty.
  intros H1 H2.
  match type of H1 with context [find_item k ?l] =>
    destruct (find_item k l) as [w|] eqn:E1; [|discriminate] end.
  injection H1 as ->. apply find_item_In in E1. simpl in E1.
  repeat (destruct E1 as [E1|E1];
          [injection E1 as <- <-;
           match goal with |- context [find_item ?x ?l] =>
             let r := eval vm_compute in (find_item x l) in
             change (find_item x l) with r in *
           end;
           first [discriminate | reflexivity]|]).
  destruct E1.
Qed.

Lemma target_names_are_stable_witness :
  TYPE_MAPPING ∅ !! "MEDIUMINT"%string = Some "INT"%string
  /\ TYPE_MAPPING ∅ !! "INT"%string = Some "INT"%string
  /\ TYPE_MAPPING {[ "INT"%string := "NUMBER"%string ]} !! "INT"%string
     = Some "INT"%string.
Proof.
  assert (H1 : TYPE_MAPPING ∅ !! "MEDIUMINT"%string = Some "INT"%string).
  { unfold TYPE_MAPPING. rewrite dict_display_lookup. reflexivity. }
  assert (H2 : TYPE_MAPPING ∅ !! "INT"%string = Some "INT"%string).
  { unfold TYPE_MAPPING. rewrite dict_display_lookup. reflexivity. }
  split; [exact H1|]. split; [exact H2|].
  exact (target_names_are_stable {[ "INT"%string := "NUMBER"%string ]}
           "MEDIUMINT" "INT" "INT" H1 H2).
Defined.

Section GeneratorFacts.
Variable node : Type.
Variable sql : node -> string -> string.

(** X17: the text of a limit clause tells its form and its expression:
    two clauses are the same text only when both are of the TOP form or
    both of the LIMIT form and their expressions render alike. *)
Theorem limit_sql_inj (e e' : node) (top top' : bool) :
  limit_sql node sql e top = limit_sql node sql e' top' ->
  top = top' /\ sql e "expression" = sql e' "expression".
Proof.
  unfold limit_sql. destruct top, top'; simpl; intros H.
  - injection H as H. auto.
  - discriminate.
  - discriminate.
  - injection H as H. auto.
Qed.
End GeneratorFacts.

Lemma limit_sql_inj_witness :
  limit_sql string (fun e _ => e) "10" false
  = limit_sql string (fun e _ => e) "10" false
  /\ false = false /\ "10"%string = "10"%string.
Proof.
  split; [reflexivity|].
  apply (limit_sql_inj string (fun e _ => e) "10"%string "10"%string
           false false).
  reflexivity.
Defined.
